(** * DCMD (David Calero Music Downloader): the download worker of [app.py]

    A shallow embedding of the pure helpers ([clean_err],
    [is_youtube_watch]), of the progress callback [Downloader._hook], of
    the worker body [Downloader.run] and of the download request path of
    the main window ([Main._ensure_selected], [Main.on_download]).

    Python [str] values are modelled as [string] (the UTF-8 bytes of the
    text).  A number of the callback payload (an [int] or a [float]) is
    given by its exact value; the arithmetic of the hook is binary64, as
    in Python, through the reference implementation [SpecFloat] of the
    standard library.  The client library [yt_dlp] is the environment: a [world]
    says what each client call does (the hook invocations it makes, how it
    ends) and when the main thread calls [stop()]; an exception raised by
    the hook propagates out of the client call, as it does in the library.
    An exception is represented by its [str(ex)]. *)

From Equations Require Import Equations.
From Stdlib Require Import List Arith ZArith QArith Qabs Bool Lia SpecFloat.
From Stdlib Require Import Strings.String Strings.Ascii Numbers.DecimalString.
Import ListNotations.

Close Scope Q_scope.
Local Open Scope nat_scope.
Local Open Scope list_scope.
Local Open Scope string_scope.

(** ** Python string primitives *)

Module PyStr.

(** [needle in s] on Python strings. *)
Fixpoint contains (needle s : string) : bool :=
  prefix needle s ||
  match s with
  | EmptyString => false
  | String _ r => contains needle r
  end.

(** A character occurs in a string. *)
Fixpoint has_char (c : ascii) (s : string) : bool :=
  match s with
  | EmptyString => false
  | String x r => Ascii.eqb x c || has_char c r
  end.

(** [str(n)] for a Python [int]. *)
Definition str_int (n : Z) : string := NilZero.string_of_int (Z.to_int n).

End PyStr.

(** ** Utilities: [ANSI_RE] and [clean_err] *)

Definition ESC : ascii := ascii_of_nat 27.

(** The character class [[0-9;]]. *)
Definition is_param (c : ascii) : bool :=
  let n := nat_of_ascii c in
  (Nat.leb 48 n && Nat.leb n 57) || Nat.eqb n 59.

(** The greedy [[0-9;]*]: drops the longest run of parameter characters. *)
Fixpoint skip_params (s : string) : string :=
  match s with
  | EmptyString => EmptyString
  | String c r => if is_param c then skip_params r else s
  end.

(** [ANSI_RE.match] at the head of [s]: the text after the match.  The
    class excludes [m], so the greedy run is the only candidate. *)
Definition match_ansi (s : string) : option string :=
  match s with
  | String c1 (String c2 r) =>
      if Ascii.eqb c1 ESC && Ascii.eqb c2 "["
      then match skip_params r with
           | String c3 rest => if Ascii.eqb c3 "m" then Some rest else None
           | EmptyString => None
           end
      else None
  | _ => None
  end.

Lemma skip_params_length (s : string) : length (skip_params s) <= length s.
Proof.
  induction s as [|c r IH]; simpl; [lia|].
  destruct (is_param c); simpl; lia.
Qed.

Lemma match_ansi_length (s rest : string) :
  match_ansi s = Some rest -> length rest < length s.
Proof.
  destruct s as [|c1 [|c2 r]]; simpl; try discriminate.
  destruct (Ascii.eqb c1 ESC && Ascii.eqb c2 "["); [|discriminate].
  pose proof (skip_params_length r) as Hle.
  destruct (skip_params r) as [|c3 t]; [discriminate|].
  destruct (Ascii.eqb c3 "m"); [|discriminate].
  intros [= <-]. simpl in Hle. lia.
Qed.

(** [ANSI_RE.sub("", s)]: one left-to-right pass deleting every match. *)
Equations? ansi_sub (s : string) : string by wf (length s) lt :=
  ansi_sub EmptyString := EmptyString;
  ansi_sub (String c r) with Logic.inspect (match_ansi (String c r)) => {
    | exist _ (Some rest) Hm := ansi_sub rest;
    | exist _ None _ := String c (ansi_sub r) }.
Proof.
  apply match_ansi_length in Hm. exact Hm.
Qed.

(** The argument of [clean_err]: annotated [str], but the body guards
    against anything else with a bare [except]. *)
Inductive pyarg : Type :=
| PStr (s : string)
| PObj (repr : string).          (* a non-str object and its [str(msg)] *)

(** [ANSI_RE.sub("", msg)]: raises [TypeError] on a non-str argument. *)
Definition re_sub (msg : pyarg) : option string :=
  match msg with
  | PStr s => Some (ansi_sub s)
  | PObj _ => None
  end.

Definition py_str (msg : pyarg) : string :=
  match msg with PStr s => s | PObj r => r end.

Definition clean_err (msg : pyarg) : string :=
  match re_sub msg with
  | Some r => r
  | None => py_str msg
  end.

Definition is_youtube_watch (url : string) : bool :=
  PyStr.contains "youtube.com/watch" url || PyStr.contains "youtu.be/" url.


(** A colour sequence: ESC, an opening bracket, parameters, [m]. *)
Fixpoint all_params (s : string) : bool :=
  match s with
  | EmptyString => true
  | String c r => is_param c && all_params r
  end.

Definition color_seq (ps : string) : string :=
  String ESC (String "[" (ps ++ "m")).

(** Some colour sequence occurs in [s]. *)
Fixpoint has_color_seq (s : string) : bool :=
  match match_ansi s with
  | Some _ => true
  | None => match s with
            | EmptyString => false
            | String _ r => has_color_seq r
            end
  end.

(** ** Model: [VideoSel] *)

Record VideoSel : Type := mkVideoSel {
  sel_url : string;
  sel_title : string
}.

Definition VideoSel_default : VideoSel := mkVideoSel "" "".

(** ** Binary64 arithmetic

    A Python [float] is a binary64 number, here a [spec_float] with the
    operations [SFdiv] and [SFmul] at precision 53 and maximal exponent
    1024. *)

Module Py64.

(** An integer as an exact operand. *)
Definition of_Z (n : Z) : spec_float :=
  match n with
  | Z0 => S754_zero false
  | Zpos p => S754_finite false p 0
  | Zneg p => S754_finite true p 0
  end.

(** [a / b] for Python numbers of exact values [a] and [b], [b] not
    zero: the binary64 number nearest to the quotient, ties to even.
    (For two [int] this is Python's true division; for [float] operands,
    and for an [int] that binary64 holds exactly, it is the IEEE
    division.) *)
Definition truediv (a b : Q) : spec_float :=
  SFdiv 53 1024 (of_Z (Qnum a * Zpos (Qden b))) (of_Z (Zpos (Qden a) * Qnum b)).

(** The literal [100.0]. *)
Definition f100 : spec_float := S754_finite false 7036874417766400 (-46).

Definition mul (x y : spec_float) : spec_float := SFmul 53 1024 x y.

Definition sign_of (x : spec_float) : bool :=
  match x with
  | S754_zero s | S754_infinity s | S754_finite s _ _ => s
  | S754_nan => false
  end.

Definition is_finite (x : spec_float) : bool :=
  match x with
  | S754_zero _ | S754_finite _ _ _ => true
  | _ => false
  end.

(** The exact value of a finite number (and 0 for the others). *)
Definition value (x : spec_float) : Q :=
  match x with
  | S754_finite s m e =>
      let v := match e with
               | Zneg k => Qmake (Zpos m) (2 ^ k)%positive
               | _ => inject_Z (Zpos m * 2 ^ e)
               end in
      if s then Qopp v else v
  | _ => 0%Q
  end.

End Py64.

(** ** Number formatting used by the progress text *)

(** Nearest integer of a non-negative rational, ties to even. *)
Definition round_half_even (q : Q) : Z :=
  let n := Qnum q in
  let d := Zpos (Qden q) in
  let fl := (n / d)%Z in
  let r := (n mod d)%Z in
  match (2 * r ?= d)%Z with
  | Lt => fl
  | Gt => (fl + 1)%Z
  | Eq => if Z.even fl then fl else (fl + 1)%Z
  end.

(** The format spec [.1f] on a float: the exact value rounded to one
    decimal, ties to even; the sign of a negative zero is kept. *)
Definition fmt_1f (x : spec_float) : string :=
  match x with
  | S754_nan => "nan"
  | S754_infinity s => if s then "-inf" else "inf"
  | _ =>
      let t := round_half_even (Qabs (Py64.value x) * 10)%Q in
      (if Py64.sign_of x then "-" else "") ++
      PyStr.str_int (t / 10)%Z ++ "." ++ PyStr.str_int (t mod 10)%Z
  end.

(** ** The progress callback *)

(** The dictionary that the client passes to a progress hook, read only
    through [d.get]: an absent key and a [None] value are both [None]. *)
Record payload : Type := mkPayload {
  status : option string;
  total_bytes : option Q;
  total_bytes_estimate : option Q;
  downloaded_bytes : option Q;
  speed : option Q;
  eta : option Z
}.

(** Truth value of [d.get(k)] for a numeric entry. *)
Definition truthy (x : option Q) : bool :=
  match x with
  | Some q => negb (Qeq_bool q 0)
  | None => false
  end.

Definition truthy_int (x : option Z) : bool :=
  match x with
  | Some n => negb (Z.eqb n 0)
  | None => false
  end.

(** [x or y] where [x] is [d.get(k)]. *)
Definition py_or (x : option Q) (y : Q) : Q :=
  match x with
  | Some q => if Qeq_bool q 0 then y else q
  | None => y
  end.

Inductive signal : Type :=
| progress (pct : spec_float) (txt : string)
| done (path : string)
| failed (msg : string).

Inductive hook_result : Type :=
| HRaise (ex : string)            (* RuntimeError *)
| HEmit (pct : spec_float) (txt : string)  (* self.progress.emit *)
| HPass.                          (* falls through both branches *)

Definition cancel_msg : string := "Cancelado por el usuario".

Definition hook_total (d : payload) : Q :=
  py_or (total_bytes d) (py_or (total_bytes_estimate d) 0%Q).

Definition hook_got (d : payload) : Q := py_or (downloaded_bytes d) 0%Q.

Definition hook_pct (d : payload) : spec_float :=
  let total := hook_total d in
  let got := hook_got d in
  if negb (Qeq_bool total 0)
  then Py64.mul (Py64.truediv got total) Py64.f100
  else S754_zero false.

Definition hook_txt (d : payload) : string :=
  let txt := fmt_1f (hook_pct d) ++ "%" in
  let txt :=
    match speed d with
    | Some v => if truthy (speed d)
                then txt ++ " • " ++ fmt_1f (Py64.truediv v 1024) ++ " KiB/s" else txt
    | None => txt
    end in
  match eta d with
  | Some e => if truthy_int (eta d)
              then txt ++ " • ETA " ++ PyStr.str_int e ++ "s" else txt
  | None => txt
  end.

Definition status_is (d : payload) (tag : string) : bool :=
  match status d with
  | Some s => String.eqb s tag
  | None => false
  end.

Definition _hook (stop : bool) (d : payload) : hook_result :=
  if stop then HRaise cancel_msg
  else if status_is d "downloading" then HEmit (hook_pct d) (hook_txt d)
  else if status_is d "finished" then HEmit Py64.f100 "Procesando…"
  else HPass.

Example hook_ex :
  _hook false (mkPayload (Some "downloading") None (Some 2048%Q) (Some 512%Q)
                         (Some 3072%Q) (Some 7%Z))
  = HEmit (S754_finite false 7036874417766400 (-48)) "25.0% • 3.0 KiB/s • ETA 7s".
Proof. reflexivity. Qed.

(** 23 of 80 bytes: 28.749999999999996 in binary64, hence [28.7]. *)
Example hook_ex_rounding :
  _hook false (mkPayload (Some "downloading") (Some 80%Q) None (Some 23%Q) None None)
  = HEmit (S754_finite false 8092405580431359 (-48)) "28.7%".
Proof. reflexivity. Qed.

(** ** The external client, as the worker sees it *)

Inductive postprocessor : Type :=
| FFmpegMetadata
| FFmpegExtractAudio (preferredcodec preferredquality : string).

(** The entries of the option dictionary that differ between calls; the
    other entries of [_common_opts] are constants. *)
Record ydl_opts : Type := mkOpts {
  outtmpl : string;
  format : option string;
  merge_output_format : option string;
  postprocessors : list postprocessor
}.

Definition _common_opts (template : string) : ydl_opts :=
  mkOpts template None None [FFmpegMetadata].

(** What happens inside one [extract_info] call, seen from the worker:
    the client invokes the progress hook, and the main thread may call
    [stop()] between two invocations. *)
Inductive client_step : Type :=
| Callback (d : payload)
| StopRequested.

(** How the [with yt_dlp.YoutubeDL(opts)] block ends when no hook raises:
    an exception with its [str(ex)], or the name from [prepare_filename]. *)
Inductive outcome : Type :=
| Raises (ex : string)
| Returns (filename : string).

Record script : Type := mkScript {
  steps : list client_step;
  ending : outcome
}.

(** The environment of one job. *)
Record world : Type := mkWorld {
  mkdir_raises : option string;             (* outdir.mkdir(parents, exist_ok) *)
  client : nat -> ydl_opts -> script;       (* the n-th client call *)
  path_exists : string -> bool;             (* os.path.exists *)
  splitext : string -> string * string      (* os.path.splitext *)
}.

(** What an execution of [run] does, in order. *)
Inductive obs : Type :=
| Call (o : ydl_opts)                 (* a client invocation *)
| HookCall (flag : bool) (d : payload) (* a hook invocation and the flag it read *)
| StopReq                             (* stop() from the main thread *)
| Emit (s : signal).

Record call_end : Type := mkEnd {
  ce_trace : list obs;
  ce_stop : bool;
  ce_out : outcome
}.

(** One client call: an exception raised by the hook leaves the call. *)
Fixpoint drive (stop : bool) (st : list client_step) (fin : outcome) : call_end :=
  match st with
  | [] => mkEnd [] stop fin
  | StopRequested :: r =>
      let c := drive true r fin in
      mkEnd (StopReq :: ce_trace c) (ce_stop c) (ce_out c)
  | Callback d :: r =>
      match _hook stop d with
      | HRaise ex => mkEnd [HookCall stop d] stop (Raises ex)
      | HEmit p t =>
          let c := drive stop r fin in
          mkEnd (HookCall stop d :: Emit (progress p t) :: ce_trace c)
                (ce_stop c) (ce_out c)
      | HPass =>
          let c := drive stop r fin in
          mkEnd (HookCall stop d :: ce_trace c) (ce_stop c) (ce_out c)
      end
  end.

Definition call_client (w : world) (n : nat) (stop : bool) (o : ydl_opts) : call_end :=
  let s := client w n o in
  drive stop (steps s) (ending s).

(** ** The download thread *)

Record Downloader : Type := mkDownloader {
  url : string;
  outdir : string;
  kind : string;
  _stop : bool
}.

Definition Downloader_init (u dir k : string) : Downloader :=
  mkDownloader u dir k false.

Definition stop (self : Downloader) : Downloader :=
  mkDownloader (url self) (outdir self) (kind self) true.

Definition format_candidates : list string :=
  [ "bestvideo[ext=mp4]+bestaudio[ext=m4a]/best[ext=mp4]";
    "bv[height<=1080][ext=mp4]+ba[ext=m4a]/b[ext=mp4]";
    "bv*+ba/b"; "best" ].

(** [PurePosixPath]: the components of a path text, split at the
    slashes ([cur] is the component being read). *)
Fixpoint path_split (s cur : string) : list string :=
  match s with
  | EmptyString => [cur]
  | String c r =>
      if Ascii.eqb c "/" then cur :: path_split r ""
      else path_split r (cur ++ String c "")
  end.

(** Empty components and [.] are dropped. *)
Definition path_part (p : string) : bool :=
  negb (String.eqb p "" || String.eqb p ".").

(** The root: [/], or [//] for exactly two leading slashes. *)
Definition path_root (s : string) : string :=
  if prefix "///" s then "/"
  else if prefix "//" s then "//"
  else if prefix "/" s then "/"
  else "".

(** [str(Path(dir) / name)] for a [name] of one component. *)
Definition path_join (dir name : string) : string :=
  path_root dir ++ String.concat "/" (filter path_part (path_split dir "") ++ [name]).

(** [str(self.outdir / "%(title).200B [%(id)s].%(ext)s")], POSIX flavour. *)
Definition template_of (self : Downloader) : string :=
  path_join (outdir self) "%(title).200B [%(id)s].%(ext)s".

Example template_of_ex :
  map (fun dir => path_join dir "x")
      ["/music"; "/"; ""; "music//sub/./"; "//srv/m"; "///srv"]
  = ["/music/x"; "/x"; "x"; "music/sub/x"; "//srv/m/x"; "/srv/x"].
Proof. reflexivity. Qed.

Definition audio_opts (template : string) : ydl_opts :=
  mkOpts template (Some "bestaudio/best") None
         [FFmpegExtractAudio "mp3" "192"; FFmpegMetadata].

Definition video_opts (template fmt : string) : ydl_opts :=
  mkOpts template (Some fmt) (Some "mp4") (postprocessors (_common_opts template)).

(** The [for cand in (...)] loop of the audio branch. *)
Fixpoint first_existing (w : world) (cands : list string) (filename : string) : string :=
  match cands with
  | [] => filename
  | cand :: r => if path_exists w cand then cand else first_existing w r filename
  end.

Definition audio_cands (base : string) : list string :=
  [base ++ ".mp3"; base ++ ".m4a"; base ++ ".webm"].

(** The test of the inner [except] of the video loop. *)
Definition retryable (ex : string) : bool :=
  PyStr.contains "403" ex || PyStr.contains "Requested format is not available" ex.

Definition video_final (w : world) (filename : string) : string :=
  let base := fst (splitext w filename) in
  if path_exists w (base ++ ".mp4") then base ++ ".mp4" else filename.

Definition generic_msg : string := "No fue posible descargar el vídeo.".

(** [for fmt in format_candidates], from the [n]-th client call on. *)
Fixpoint video_loop (w : world) (template : string) (flag : bool) (n : nat)
         (fmts : list string) (last : option string) : list obs :=
  match fmts with
  | [] =>
      [Emit (failed (clean_err (PStr match last with
                                     | Some ex => ex
                                     | None => generic_msg
                                     end)))]
  | fmt :: rest =>
      let opts := video_opts template fmt in
      let c := call_client w n flag opts in
      Call opts :: ce_trace c ++
      match ce_out c with
      | Returns filename => [Emit (done (video_final w filename))]
      | Raises ex =>
          if retryable ex
          then video_loop w template (ce_stop c) (S n) rest (Some ex)
          else [Emit (failed (clean_err (PStr ex)))]
      end
  end.

Definition run_audio (w : world) (self : Downloader) : list obs :=
  let opts := audio_opts (template_of self) in
  let c := call_client w 0 (_stop self) opts in
  Call opts :: ce_trace c ++
  match ce_out c with
  | Returns filename =>
      let base := fst (splitext w filename) in
      [Emit (done (first_existing w (audio_cands base) filename))]
  | Raises ex => [Emit (failed (clean_err (PStr ex)))]
  end.

Definition run (w : world) (self : Downloader) : list obs :=
  match mkdir_raises w with
  | Some ex => [Emit (failed (clean_err (PStr ex)))]
  | None =>
      if String.eqb (kind self) "audio"
      then run_audio w self
      else video_loop w (template_of self) (_stop self) 0 format_candidates None
  end.

(** The signals of a trace, in emission order. *)
Fixpoint signals (tr : list obs) : list signal :=
  match tr with
  | [] => []
  | Emit s :: r => s :: signals r
  | _ :: r => signals r
  end.

(** The client invocations of a trace, in order. *)
Fixpoint calls (tr : list obs) : list ydl_opts :=
  match tr with
  | [] => []
  | Call o :: r => o :: calls r
  | _ :: r => calls r
  end.

Definition is_terminal (s : signal) : bool :=
  match s with
  | progress _ _ => false
  | _ => true
  end.

(** ** The main window: requesting a download *)

Record Main : Type := mkMain {
  sel : VideoSel;
  web_url : string;                 (* self.web.url().toString() *)
  download_dir : string;
  dlt : option bool                 (* the last worker and its isRunning() *)
}.

Definition _ensure_selected (self : Main) : option string :=
  let u := if String.eqb (sel_url (sel self)) "" then web_url self
           else sel_url (sel self) in
  if negb (is_youtube_watch u) then None else Some u.

Inductive download_reply : Type :=
| AskSelect                         (* information box: select a video *)
| Silent                            (* plain return *)
| Busy                              (* warning box: a download is running *)
| Started (d : Downloader).         (* self.dlt = Downloader(...); start() *)

Definition on_download (self : Main) (k : string) : download_reply :=
  match _ensure_selected self with
  | None => AskSelect
  | Some u =>
      if String.eqb u "" then Silent
      else match dlt self with
           | Some true => Busy
           | _ => Started (Downloader_init u (download_dir self) k)
           end
  end.

(** ** The successive client calls of a video job

    The value of the flag when the [k]-th call starts, and what that call
    does: these replay the calls that [video_loop] makes as long as it
    keeps going. *)

Fixpoint flag_at (w : world) (template : string) (flag0 : bool)
         (cands : list string) (k : nat) : bool :=
  match k with
  | 0 => flag0
  | S k' =>
      ce_stop (call_client w k' (flag_at w template flag0 cands k')
                           (video_opts template (nth k' cands "")))
  end.

Definition attempt (w : world) (template : string) (flag0 : bool)
           (cands : list string) (k : nat) : call_end :=
  call_client w k (flag_at w template flag0 cands k)
              (video_opts template (nth k cands "")).

(** The [k]-th call of the job [self] ends with an error that the loop
    answers with [continue]. *)
Definition retried (w : world) (self : Downloader) (k : nat) : Prop :=
  exists ex,
    ce_out (attempt w (template_of self) (_stop self) format_candidates k) = Raises ex /\
    retryable ex = true.

(** ** [os.path.splitext] on a POSIX system

    The worker calls the platform's [os.path.splitext]; a [world] carries
    it.  This is the [posixpath] one, used by the concrete worlds below. *)

(** [s.rfind(c)], with [i] the index of the head of [s]: -1 when absent. *)
Fixpoint rfind_from (c : ascii) (s : string) (i : Z) : Z :=
  match s with
  | EmptyString => (-1)%Z
  | String x r =>
      let k := rfind_from c r (i + 1)%Z in
      if (0 <=? k)%Z then k else if Ascii.eqb x c then i else (-1)%Z
  end.

Definition rfind (c : ascii) (s : string) : Z := rfind_from c s 0%Z.

(** The [while] loop of [_splitext]: some character in [[i, i+n)] is not a dot. *)
Fixpoint non_dot_within (p : string) (i n : nat) : bool :=
  match n with
  | 0 => false
  | S n' =>
      match String.get i p with
      | Some c => if Ascii.eqb c "." then non_dot_within p (S i) n' else true
      | None => true
      end
  end.

Definition posix_splitext (p : string) : string * string :=
  let sepIndex := rfind "/" p in
  let dotIndex := rfind "." p in
  if (sepIndex <? dotIndex)%Z
  then
    let filenameIndex := Z.to_nat (sepIndex + 1) in
    let dot := Z.to_nat dotIndex in
    if non_dot_within p filenameIndex (dot - filenameIndex)
    then (substring 0 dot p, substring dot (String.length p - dot) p)
    else (p, "")
  else (p, "").

Example posix_splitext_ex1 :
  posix_splitext "/music/Song [abc].webm" = ("/music/Song [abc]", ".webm").
Proof. reflexivity. Qed.

Example posix_splitext_ex2 :
  posix_splitext "/mu.sic/.hidden" = ("/mu.sic/.hidden", "").
Proof. reflexivity. Qed.

(** ** Progress normalization, in the words of the design

    The total is the exact size when the payload has one, else the
    estimate; a size that is absent, [None] or zero is not known. *)

Definition known (x : option Q) : option Q :=
  match x with
  | Some q => if Qeq_bool q 0 then None else Some q
  | None => None
  end.

Definition spec_total (d : payload) : option Q :=
  match known (total_bytes d) with
  | Some t => Some t
  | None => known (total_bytes_estimate d)
  end.

Definition spec_downloaded (d : payload) : Q :=
  match downloaded_bytes d with
  | Some g => g
  | None => 0%Q
  end.

(** [s] is the number [x] written with one decimal: the digits are
    those of the multiple of one tenth nearest to [x] (the even one in
    case of a tie), after the sign of [x]. *)
Definition is_one_decimal (x : spec_float) (s : string) : Prop :=
  match x with
  | S754_nan => s = "nan"
  | S754_infinity sg => s = if sg then "-inf" else "inf"
  | _ =>
      exists t : Z,
        (0 <= t)%Z /\
        (Qabs (Qabs (Py64.value x) * 10 - inject_Z t) <= 1 # 2)%Q /\
        ((Qabs (Qabs (Py64.value x) * 10 - inject_Z t) == 1 # 2)%Q -> Z.even t = true) /\
        s = (if Py64.sign_of x then "-" else "")
            ++ PyStr.str_int (t / 10)%Z ++ "." ++ PyStr.str_int (t mod 10)%Z
  end.

(** The downloaded byte count is not negative and does not exceed the
    known total. *)
Definition within_total (d : payload) : Prop :=
  match downloaded_bytes d with
  | Some g => (0 <= g)%Q /\ forall t, spec_total d = Some t -> (g <= t)%Q
  | None => True
  end.

(** ** Rounding below a bound

    [bound_at kB eB e] is the number [kB * 2^eB] counted in units of
    [2^e], for [e <= eB]. *)

Definition bound_at (kB eB e : Z) : Z := (kB * 2 ^ (eB - e))%Z.

(** 1 when the record stands for a number strictly above its mantissa. *)
Definition inexact (mrs : shr_record) : Z :=
  if shr_r mrs || shr_s mrs then 1%Z else 0%Z.

(** The number that [mrs] stands for at exponent [e] is at most
    [kB * 2^eB]. *)
Definition fits (kB eB : Z) (mrs : shr_record) (e : Z) : Prop :=
  (0 <= shr_m mrs /\ e <= eB /\ shr_m mrs + inexact mrs <= bound_at kB eB e)%Z.

(** [x] is a float between [+0] and [kB * 2^eB]. *)
Definition below (kB eB : Z) (x : spec_float) : Prop :=
  match x with
  | S754_zero false => True
  | S754_finite false m e => (e <= eB /\ Zpos m <= bound_at kB eB e)%Z
  | _ => False
  end.

Local Open Scope list_scope.

(** ** Reading a trace *)

(** No signal of a trace is a terminal one. *)
Definition only_progress (tr : list obs) : Prop :=
  Forall (fun s => is_terminal s = false) (signals tr).

(** A trace that is a body without terminal signal followed by one
    terminal signal. *)
Definition ends_with (tr : list obs) (t : signal) : Prop :=
  exists body, tr = body ++ [Emit t] /\ only_progress body.

(** The flag after a trace that started with [flag]. *)
Definition flag_after (flag : bool) (tr : list obs) : bool :=
  flag || existsb (fun o => match o with StopReq => true | _ => false end) tr.

(** Every hook invocation of the trace read the flag as [stop()] left it. *)
Fixpoint flags_read (flag : bool) (tr : list obs) : Prop :=
  match tr with
  | [] => True
  | StopReq :: r => flags_read true r
  | HookCall f _ :: r => f = flag /\ flags_read flag r
  | _ :: r => flags_read flag r
  end.

(** After a hook invocation that read a set flag, the trace goes on with
    the [failed] signal of the cancellation and nothing else. *)
Fixpoint aborts_on_cancel (tr : list obs) : Prop :=
  match tr with
  | [] => True
  | HookCall true _ :: r => r = [Emit (failed cancel_msg)]
  | _ :: r => aborts_on_cancel r
  end.

(** The URL that [on_search] loads for an encoded query. *)
Definition search_url (query : string) : string :=
  "https://www.youtube.com/results?search_query=" ++ query.

(** ** Concrete worlds and requests *)

Module Worlds.

Definition downloading (got total : Q) : payload :=
  mkPayload (Some "downloading") (Some total) None (Some got) (Some 204800%Q) (Some 3%Z).

Definition finished : payload :=
  mkPayload (Some "finished") (Some 4096%Q) None (Some 4096%Q) None None.

Definition a_download : list client_step :=
  [Callback (downloading 1024 4096); Callback (downloading 4096 4096); Callback finished].

(** Only [name] is on disk after the job. *)
Definition disk (name : string) : string -> bool := fun p => String.eqb p name.

(** The first two calls end with retried errors, the third succeeds. *)
Definition third_time : world :=
  mkWorld None
    (fun n _ =>
       match n with
       | 0 => mkScript [] (Raises "ERROR: unable to download video data: HTTP Error 403: Forbidden")
       | 1 => mkScript [] (Raises "ERROR: [youtube] abc: Requested format is not available")
       | _ => mkScript a_download (Returns "/music/Song [abc].webm")
       end)
    (disk "/music/Song [abc].mp4")
    posix_splitext.

(** The second call ends with an error that is not retried. *)
Definition disk_full : world :=
  mkWorld None
    (fun n _ =>
       match n with
       | 0 => mkScript [] (Raises "ERROR: [youtube] abc: Requested format is not available")
       | 1 => mkScript [Callback (downloading 1024 4096)]
                       (Raises (String ESC "[0;31mERROR:" ++ String ESC "[0m [Errno 28] No space left on device"))
       | _ => mkScript a_download (Returns "/music/Song [abc].mp4")
       end)
    (disk "/music/Song [abc].mp4")
    posix_splitext.

(** An audio download after which only the [.m4a] file exists. *)
Definition only_m4a : world :=
  mkWorld None
    (fun _ _ => mkScript a_download (Returns "/music/Song [abc].webm"))
    (disk "/music/Song [abc].m4a")
    posix_splitext.

(** [stop()] arrives after the last callback, while the client is
    post-processing. *)
Definition late_stop : world :=
  mkWorld None
    (fun _ _ => mkScript (a_download ++ [StopRequested]) (Returns "/music/Song [abc].webm"))
    (disk "/music/Song [abc].mp3")
    posix_splitext.

(** [stop()] arrives between two callbacks. *)
Definition early_stop : world :=
  mkWorld None
    (fun _ _ => mkScript [Callback (downloading 1024 4096); StopRequested;
                          Callback (downloading 4096 4096); Callback finished]
                         (Returns "/music/Song [abc].webm"))
    (disk "/music/Song [abc].mp3")
    posix_splitext.

(** The second call succeeds, and nothing is on disk afterwards. *)
Definition empty_disk : world :=
  mkWorld None
    (fun n _ =>
       match n with
       | 0 => mkScript [] (Raises "ERROR: [youtube] abc: Requested format is not available")
       | _ => mkScript a_download (Returns "/music/Song [abc].webm")
       end)
    (fun _ => false)
    posix_splitext.

(** All but one of [2^54] bytes are downloaded. *)
Definition almost_done : payload :=
  mkPayload (Some "downloading") (Some 18014398509481984%Q) None
            (Some 18014398509481983%Q) None None.

Definition video_job : Downloader :=
  Downloader_init "https://www.youtube.com/watch?v=abc" "/music" "video".

Definition audio_job : Downloader :=
  Downloader_init "https://www.youtube.com/watch?v=abc" "/music" "audio".

End Worlds.

Module Requests.

(** No selection, a watch page on screen, and a download still running. *)
Definition busy_watch_page : Main :=
  mkMain VideoSel_default "https://www.youtube.com/watch?v=abc" "/music" (Some true).

(** No selection, a watch page on screen, no download running. *)
Definition idle_watch_page : Main :=
  mkMain VideoSel_default "https://www.youtube.com/watch?v=abc" "/music" None.

End Requests.

(** ** The calls a job makes *)

(** What the [k]-th client call of a job is and how it ends: the single
    call of an audio job, the [k]-th pass of the loop of a video job. *)
Definition job_call (w : world) (self : Downloader) (k : nat) : call_end :=
  if String.eqb (kind self) "audio"
  then call_client w 0 (_stop self) (audio_opts (template_of self))
  else attempt w (template_of self) (_stop self) format_candidates k.

(** ** The calls a job may make *)

(** The option dictionaries that [run] can hand to the client, in the
    order of the code: the single audio call, or one call per format
    candidate. *)
Definition planned_calls (self : Downloader) : list ydl_opts :=
  if String.eqb (kind self) "audio"
  then [audio_opts (template_of self)]
  else map (video_opts (template_of self)) format_candidates.

(** What the job's first client call does. *)
Definition first_call (w : world) (self : Downloader) : script :=
  client w 0 (hd (audio_opts (template_of self)) (planned_calls self)).

(** ** The main window: showing progress *)

(** [int(p)] for a Python float: the integer part, toward zero; it
    raises on an infinity and on a NaN. *)
Definition py_int (x : spec_float) : option Z :=
  match x with
  | S754_zero _ => Some 0%Z
  | S754_finite s m e =>
      let a := match e with
               | Zneg k => (Zpos m / Zpos (2 ^ k))%Z
               | _ => (Zpos m * 2 ^ e)%Z
               end in
      Some (if s then (- a)%Z else a)
  | _ => None
  end.

(** [Main.on_progress]: the value handed to the bar's [setValue] and the
    text handed to the status label ([None] when [int(p)] raises). *)
Definition on_progress (p : spec_float) (txt : string) : option (Z * string) :=
  match py_int p with
  | Some v => Some (v, txt)
  | None => None
  end.

(** ** Texts that only lost characters *)

(** [a] is [b] with some characters deleted. *)
Inductive Subseq : string -> string -> Prop :=
| Subseq_nil : Subseq "" ""
| Subseq_keep (c : ascii) (a b : string) : Subseq a b -> Subseq (String c a) (String c b)
| Subseq_drop (c : ascii) (a b : string) : Subseq a b -> Subseq a (String c b).

(** ** The main window: selection and events *)

(** [Main.on_use_current], with [title] the value of [self.web.title()]. *)
Definition on_use_current (self : Main) (title : string) : Main :=
  if negb (is_youtube_watch (web_url self)) then self
  else mkMain (mkVideoSel (web_url self) title)
              (web_url self) (download_dir self) (dlt self).

(** [Main.on_choose_dir], with [d] the answer of the folder dialog (empty
    when it was dismissed). *)
Definition on_choose_dir (self : Main) (d : string) : Main :=
  if String.eqb d "" then self
  else mkMain (sel self) (web_url self) d (dlt self).

(** [Main.on_cancel]: whether [stop()] is called on the worker. *)
Definition on_cancel (self : Main) : bool :=
  match dlt self with
  | Some true => true
  | _ => false
  end.

(** The window after [__init__], for a home directory. *)
Definition Main_init (home : string) : Main :=
  mkMain VideoSel_default "https://www.youtube.com/"
         (home ++ "/Desktop/Mi Música") None.

(** What can happen to the window between two download requests. *)
Inductive ui_event : Type :=
| Navigated (u : string)        (* the page on screen changed *)
| UseCurrent (title : string)   (* button: use this video *)
| ChooseDir (d : string)        (* button: folder *)
| Download (k : string)         (* buttons: download audio or video *)
| WorkerEnded.                  (* the thread of the worker finished *)

Definition ui_step (self : Main) (ev : ui_event) : Main :=
  match ev with
  | Navigated u => mkMain (sel self) u (download_dir self) (dlt self)
  | UseCurrent title => on_use_current self title
  | ChooseDir d => on_choose_dir self d
  | Download k =>
      match on_download self k with
      | Started _ => mkMain (sel self) (web_url self) (download_dir self) (Some true)
      | _ => self
      end
  | WorkerEnded =>
      match dlt self with
      | Some _ => mkMain (sel self) (web_url self) (download_dir self) (Some false)
      | None => self
      end
  end.

Definition ui_run (self : Main) (evs : list ui_event) : Main :=
  fold_left ui_step evs self.

(** The selection is empty or a URL that passes the predicate. *)
Definition selection_ok (m : Main) : Prop :=
  sel_url (sel m) = ""%string \/ is_youtube_watch (sel_url (sel m)) = true.

(** * Properties *)

(** ** Traces *)

Section Traces.

Lemma signals_app (a b : list obs) : signals (a ++ b) = signals a ++ signals b.
Proof.
  induction a as [|o a IH]; simpl; [reflexivity|].
  destruct o; simpl; rewrite IH; reflexivity.
Qed.

Lemma calls_app (a b : list obs) : calls (a ++ b) = calls a ++ calls b.
Proof.
  induction a as [|o a IH]; simpl; [reflexivity|].
  destruct o; simpl; rewrite IH; reflexivity.
Qed.

Lemma only_progress_app (a b : list obs) :
  only_progress a -> only_progress b -> only_progress (a ++ b).
Proof.
  unfold only_progress. rewrite signals_app. intros Ha Hb.
  apply Forall_app; split; assumption.
Qed.

Lemma only_progress_cons_call (o : ydl_opts) (tr : list obs) :
  only_progress tr -> only_progress (Call o :: tr).
Proof. exact (fun H => H). Qed.

Lemma ends_with_prepend (pre tr : list obs) (t : signal) :
  only_progress pre -> ends_with tr t -> ends_with (pre ++ tr) t.
Proof.
  intros Hpre (body & -> & Hb). exists (pre ++ body). split.
  - rewrite app_assoc. reflexivity.
  - apply only_progress_app; assumption.
Qed.

Lemma ends_with_single (t : signal) : ends_with [Emit t] t.
Proof. exists []. split; [reflexivity | constructor]. Qed.

Lemma ends_with_signals (tr : list obs) (t : signal) :
  ends_with tr t -> signals tr = signals (removelast tr) ++ [t].
Proof.
  intros (body & -> & _). rewrite removelast_last, signals_app. reflexivity.
Qed.

End Traces.

(** ** One client call *)

Section ClientCall.

Lemma drive_only_progress (st : list client_step) (fin : outcome) (flag : bool) :
  only_progress (ce_trace (drive flag st fin)).
Proof.
  revert flag. induction st as [|s r IH]; intro flag; simpl.
  - constructor.
  - destruct s as [d|]; [|apply IH].
    destruct (_hook flag d); simpl.
    + constructor.
    + constructor; [reflexivity | apply IH].
    + apply IH.
Qed.

Lemma drive_calls (st : list client_step) (fin : outcome) (flag : bool) :
  calls (ce_trace (drive flag st fin)) = [].
Proof.
  revert flag. induction st as [|s r IH]; intro flag; simpl; [reflexivity|].
  destruct s as [d|]; [|apply IH].
  destruct (_hook flag d); simpl; try apply IH; reflexivity.
Qed.

(** Once set, the flag stays set. *)
Lemma drive_flag_kept (st : list client_step) (fin : outcome) :
  ce_stop (drive true st fin) = true.
Proof.
  induction st as [|s r IH]; simpl; [reflexivity|].
  destruct s as [d|]; [|exact IH]. reflexivity.
Qed.

(** A hook invocation that reads a set flag ends the call with the
    cancellation error. *)
Lemma drive_cancelled (st : list client_step) (fin : outcome) (flag : bool) (d : payload) :
  In (HookCall true d) (ce_trace (drive flag st fin)) ->
  ce_out (drive flag st fin) = Raises cancel_msg /\
  ce_stop (drive flag st fin) = true.
Proof.
  revert flag. induction st as [|s r IH]; intro flag; simpl; [intros []|].
  destruct s as [d'|].
  - destruct flag; simpl.
    + intros _. split; reflexivity.
    + destruct (if status_is d' "downloading" then _ else _) eqn:E; simpl.
      * intros [H|[]]. discriminate H.
      * intros [H|[H|H]]; try discriminate H. apply IH, H.
      * intros [H|H]; [discriminate H | apply IH, H].
  - simpl. intros [H|H]; [discriminate H | apply IH, H].
Qed.

(** A [stop()] during the call leaves the flag set. *)
Lemma drive_stop_requested (st : list client_step) (fin : outcome) (flag : bool) :
  In StopReq (ce_trace (drive flag st fin)) -> ce_stop (drive flag st fin) = true.
Proof.
  revert flag. induction st as [|s r IH]; intro flag; simpl; [intros []|].
  destruct s as [d|].
  - destruct (_hook flag d) eqn:E; simpl.
    + intros [H|[]]. discriminate H.
    + intros [H|[H|H]]; try discriminate H. apply IH, H.
    + intros [H|H]; [discriminate H | apply IH, H].
  - intros _. simpl. apply drive_flag_kept.
Qed.

End ClientCall.

(** ** The worker body *)

Section Run.

Variable w : world.

Lemma call_client_only_progress (n : nat) (flag : bool) (o : ydl_opts) :
  only_progress (ce_trace (call_client w n flag o)).
Proof. apply drive_only_progress. Qed.

Lemma call_client_calls (n : nat) (flag : bool) (o : ydl_opts) :
  calls (ce_trace (call_client w n flag o)) = [].
Proof. apply drive_calls. Qed.

Lemma video_loop_ends (template : string) (fmts : list string) :
  forall flag n last,
  exists t, is_terminal t = true /\
            ends_with (video_loop w template flag n fmts last) t.
Proof.
  induction fmts as [|fmt rest IH]; intros flag n last; simpl.
  - eexists. split; [|apply ends_with_single]. reflexivity.
  - set (c := call_client w n flag (video_opts template fmt)).
    assert (Hc : only_progress (Call (video_opts template fmt) :: ce_trace c))
      by apply call_client_only_progress.
    change (Call (video_opts template fmt) :: ce_trace c ++ ?x)
      with ((Call (video_opts template fmt) :: ce_trace c) ++ x).
    destruct (ce_out c) as [ex|filename].
    + destruct (retryable ex).
      * destruct (IH (ce_stop c) (S n) (Some ex)) as (t & Ht & He).
        exists t. split; [exact Ht|]. apply ends_with_prepend; assumption.
      * eexists. split; [|apply ends_with_prepend; [exact Hc | apply ends_with_single]].
        reflexivity.
    + eexists. split; [|apply ends_with_prepend; [exact Hc | apply ends_with_single]].
      reflexivity.
Qed.

Lemma run_audio_ends (self : Downloader) :
  exists t, is_terminal t = true /\ ends_with (run_audio w self) t.
Proof.
  unfold run_audio.
  set (o := audio_opts (template_of self)).
  set (c := call_client w 0 (_stop self) o).
  assert (Hc : only_progress (Call o :: ce_trace c))
    by apply call_client_only_progress.
  change (Call o :: ce_trace c ++ ?x) with ((Call o :: ce_trace c) ++ x).
  destruct (ce_out c) as [ex|filename];
    (eexists; split; [|apply ends_with_prepend; [exact Hc | apply ends_with_single]]);
    reflexivity.
Qed.

End Run.

Lemma run_ends (w : world) (self : Downloader) :
  exists t, is_terminal t = true /\ ends_with (run w self) t.
Proof.
  unfold run. destruct (mkdir_raises w) as [ex|].
  - eexists. split; [|apply ends_with_single]. reflexivity.
  - destruct (String.eqb (kind self) "audio").
    + apply run_audio_ends.
    + apply video_loop_ends.
Qed.

(** C1. Every job, whatever its kind and whatever the client and the
    main thread do, emits exactly one terminal signal ([done] or
    [failed]); that emission is the last action of [run], and every signal
    before it is a [progress]. *)
Theorem run_exactly_one_outcome (w : world) (self : Downloader) :
  exists body t,
    run w self = body ++ [Emit t] /\
    is_terminal t = true /\
    Forall (fun s => is_terminal s = false) (signals body) /\
    signals (run w self) = signals body ++ [t] /\
    List.length (filter is_terminal (signals (run w self))) = 1.
Proof.
  destruct (run_ends w self) as (t & Ht & body & E & Hb).
  exists body, t. rewrite E, signals_app. repeat split; try assumption.
  rewrite filter_app. simpl. rewrite Ht.
  replace (filter is_terminal (signals body)) with (@nil signal); [reflexivity|].
  symmetry. unfold only_progress in Hb.
  induction (signals body) as [|s l IH]; [reflexivity|].
  inversion Hb as [|? ? Hs Hl]; subst. simpl. rewrite Hs. apply IH, Hl.
Qed.

(** ** The format fallback of a video job *)

Section VideoLoop.

Variable w : world.
Variable template : string.
Variable flag0 : bool.
Variable cands : list string.

Let flag (k : nat) : bool := flag_at w template flag0 cands k.
Let try_nth (k : nat) : call_end := attempt w template flag0 cands k.
Let opts_nth (k : nat) : ydl_opts := video_opts template (nth k cands "").

Lemma skipn_cons_nth (k : nat) :
  k < List.length cands ->
  skipn k cands = nth k cands "" :: skipn (S k) cands.
Proof.
  clear flag try_nth opts_nth. revert k.
  induction cands as [|x l IH]; intros k Hk; simpl in Hk; [lia|].
  destruct k as [|k]; [reflexivity|].
  change (skipn k l = nth k l "" :: skipn (S k) l). apply IH. lia.
Qed.

Lemma firstn_S_skipn (j k : nat) :
  k < List.length cands ->
  firstn (S j) (skipn k cands) = nth k cands "" :: firstn j (skipn (S k) cands).
Proof. intro Hk. rewrite (skipn_cons_nth k Hk). reflexivity. Qed.

(** One turn of the loop, at its [k]-th candidate. *)
Lemma video_loop_step (k : nat) (last : option string) :
  k < List.length cands ->
  video_loop w template (flag k) k (skipn k cands) last =
  (Call (opts_nth k) :: ce_trace (try_nth k)) ++
  match ce_out (try_nth k) with
  | Returns filename => [Emit (done (video_final w filename))]
  | Raises ex =>
      if retryable ex
      then video_loop w template (flag (S k)) (S k) (skipn (S k) cands) (Some ex)
      else [Emit (failed (clean_err (PStr ex)))]
  end.
Proof. intro Hk. rewrite (skipn_cons_nth k Hk). reflexivity. Qed.

(** [j] retried candidates in a row, from the [k]-th on. *)
Lemma video_loop_retries (j : nat) :
  forall (k : nat) (last : option string),
  k + j <= List.length cands ->
  (forall i, k <= i < k + j ->
     exists ex, ce_out (try_nth i) = Raises ex /\ retryable ex = true) ->
  exists pre last',
    video_loop w template (flag k) k (skipn k cands) last =
    pre ++ video_loop w template (flag (k + j)) (k + j) (skipn (k + j) cands) last' /\
    calls pre = map (video_opts template) (firstn j (skipn k cands)) /\
    only_progress pre.
Proof.
  induction j as [|j IH]; intros k last Hlen Hretry.
  - exists [], last. rewrite Nat.add_0_r. repeat split. constructor.
  - assert (Hk : k < List.length cands) by lia.
    destruct (Hretry k ltac:(lia)) as (ex & Hout & Hre).
    destruct (IH (S k) (Some ex) ltac:(lia)) as (pre & last' & E & Hc & Hp).
    { intros i Hi. apply Hretry. lia. }
    exists ((Call (opts_nth k) :: ce_trace (try_nth k)) ++ pre), last'.
    rewrite (video_loop_step k last Hk), Hout, Hre, E.
    replace (k + S j) with (S k + j) by lia.
    split; [apply app_assoc|]. split.
    + rewrite calls_app, Hc, (firstn_S_skipn j k Hk). simpl.
      unfold try_nth, attempt. rewrite call_client_calls. reflexivity.
    + apply only_progress_app; [|exact Hp].
      apply only_progress_cons_call, call_client_only_progress.
Qed.

(** The loop leaves at the first candidate that is not retried. *)
Lemma video_loop_leaves (j : nat) (t : signal) :
  j < List.length cands ->
  (forall i, i < j ->
     exists ex, ce_out (try_nth i) = Raises ex /\ retryable ex = true) ->
  match ce_out (try_nth j) with
  | Returns filename => t = done (video_final w filename)
  | Raises ex => retryable ex = false /\ t = failed (clean_err (PStr ex))
  end ->
  calls (video_loop w template flag0 0 cands None) =
    map (video_opts template) (firstn (S j) cands) /\
  ends_with (video_loop w template flag0 0 cands None) t.
Proof.
  intros Hj Hretry Hlast.
  destruct (video_loop_retries j 0 None ltac:(lia)) as (pre & last' & E & Hc & Hp).
  { intros i Hi. apply Hretry. lia. }
  simpl in E, Hc. change (flag 0) with flag0 in E. rewrite E.
  rewrite (video_loop_step j last' Hj).
  assert (Hcall : calls (Call (opts_nth j) :: ce_trace (try_nth j)) = [opts_nth j]).
  { simpl. unfold try_nth, attempt. rewrite call_client_calls. reflexivity. }
  assert (Hpr : only_progress (Call (opts_nth j) :: ce_trace (try_nth j))).
  { apply only_progress_cons_call, call_client_only_progress. }
  assert (Hfirst : firstn (S j) cands = firstn j cands ++ [nth j cands ""]).
  { clear -Hj. revert j Hj. induction cands as [|x l IH]; intros j Hj; simpl in Hj; [lia|].
    destruct j as [|j]; [reflexivity|].
    change (x :: firstn (S j) l = x :: (firstn j l ++ [nth j l ""])).
    rewrite IH by lia. reflexivity. }
  assert (Hshape : forall t',
            calls (pre ++ (Call (opts_nth j) :: ce_trace (try_nth j)) ++ [Emit t']) =
              map (video_opts template) (firstn (S j) cands) /\
            ends_with (pre ++ (Call (opts_nth j) :: ce_trace (try_nth j)) ++ [Emit t']) t').
  { intro t'. split.
    - rewrite !calls_app, Hc, Hcall, Hfirst, map_app. reflexivity.
    - apply ends_with_prepend; [exact Hp|].
      apply ends_with_prepend; [exact Hpr | apply ends_with_single]. }
  destruct (ce_out (try_nth j)) as [ex|filename].
  - destruct Hlast as [Hre ->]. rewrite Hre. apply Hshape.
  - subst t. apply Hshape.
Qed.

End VideoLoop.

(** ** Format fallback *)

(** C3. A video job whose first [N-1] client calls end with errors
    classified as forbidden or format-unavailable, and whose [N]-th call
    succeeds, calls the client exactly [N] times, with the first [N]
    format candidates in their declared order, and ends with [done]:
    the [format] entries of the option dictionaries handed to the client
    are those candidates, one per call, and every dictionary carries the
    job's template, the [mp4] merge format and the metadata
    post-processor. *)
Theorem video_fallback_succeeds_on_nth
        (w : world) (self : Downloader) (N : nat) (filename : string) :
  mkdir_raises w = None ->
  String.eqb (kind self) "audio" = false ->
  1 <= N <= List.length format_candidates ->
  (forall k, k < N - 1 -> retried w self k) ->
  ce_out (attempt w (template_of self) (_stop self) format_candidates (N - 1))
    = Returns filename ->
  calls (run w self) =
    map (video_opts (template_of self)) (firstn N format_candidates) /\
  List.length (calls (run w self)) = N /\
  ends_with (run w self) (done (video_final w filename)) /\
  map format (calls (run w self)) = map Some (firstn N format_candidates) /\
  Forall (fun o => outtmpl o = template_of self /\
                   merge_output_format o = Some "mp4"%string /\
                   postprocessors o = [FFmpegMetadata])
         (calls (run w self)).
Proof.
  intros Hmk Hkind HN Hretry Hok. unfold run. rewrite Hmk, Hkind.
  destruct (video_loop_leaves w (template_of self) (_stop self) format_candidates
              (N - 1) (done (video_final w filename))) as [Hc He].
  - lia.
  - exact Hretry.
  - rewrite Hok. reflexivity.
  - replace (S (N - 1)) with N in Hc by lia.
    split; [exact Hc|]. split; [|split; [exact He|]].
    + rewrite Hc, length_map, length_firstn. lia.
    + rewrite Hc. split.
      * rewrite map_map. reflexivity.
      * apply Forall_forall. intros o Ho. apply in_map_iff in Ho.
        destruct Ho as (fmt & <- & _). repeat split.
Qed.

Lemma video_fallback_succeeds_on_nth_witness :
  calls (run Worlds.third_time Worlds.video_job) =
    map (video_opts "/music/%(title).200B [%(id)s].%(ext)s")
        [ "bestvideo[ext=mp4]+bestaudio[ext=m4a]/best[ext=mp4]";
          "bv[height<=1080][ext=mp4]+ba[ext=m4a]/b[ext=mp4]";
          "bv*+ba/b" ] /\
  List.length (calls (run Worlds.third_time Worlds.video_job)) = 3 /\
  ends_with (run Worlds.third_time Worlds.video_job) (done "/music/Song [abc].mp4") /\
  map format (calls (run Worlds.third_time Worlds.video_job)) =
    [ Some "bestvideo[ext=mp4]+bestaudio[ext=m4a]/best[ext=mp4]";
      Some "bv[height<=1080][ext=mp4]+ba[ext=m4a]/b[ext=mp4]";
      Some "bv*+ba/b" ]%string /\
  Forall (fun o => outtmpl o = "/music/%(title).200B [%(id)s].%(ext)s"%string /\
                   merge_output_format o = Some "mp4"%string /\
                   postprocessors o = [FFmpegMetadata])
         (calls (run Worlds.third_time Worlds.video_job)).
Proof.
  apply (video_fallback_succeeds_on_nth Worlds.third_time Worlds.video_job 3
                                        "/music/Song [abc].webm").
  - reflexivity.
  - reflexivity.
  - simpl. lia.
  - intros k Hk. destruct k as [|[|k]].
    + eexists. split; reflexivity.
    + eexists. split; reflexivity.
    + simpl in Hk. lia.
  - reflexivity.
Defined.

(** C4. A video job whose [k+1]-th client call (the earlier ones having
    been retried) ends with an error that is neither forbidden nor
    format-unavailable emits [failed] with the sanitized text of that
    error and calls the client no further: the calls are exactly the
    first [k+1] candidates. *)
Theorem video_unclassified_error_is_final
        (w : world) (self : Downloader) (k : nat) (ex : string) :
  mkdir_raises w = None ->
  String.eqb (kind self) "audio" = false ->
  k < List.length format_candidates ->
  (forall i, i < k -> retried w self i) ->
  ce_out (attempt w (template_of self) (_stop self) format_candidates k) = Raises ex ->
  retryable ex = false ->
  calls (run w self) =
    map (video_opts (template_of self)) (firstn (S k) format_candidates) /\
  ends_with (run w self) (failed (clean_err (PStr ex))).
Proof.
  intros Hmk Hkind Hk Hretry Hout Hre. unfold run. rewrite Hmk, Hkind.
  apply video_loop_leaves; [exact Hk | exact Hretry |].
  rewrite Hout. split; [exact Hre | reflexivity].
Qed.

Lemma video_unclassified_error_is_final_witness :
  calls (run Worlds.disk_full Worlds.video_job) =
    map (video_opts "/music/%(title).200B [%(id)s].%(ext)s")
        [ "bestvideo[ext=mp4]+bestaudio[ext=m4a]/best[ext=mp4]";
          "bv[height<=1080][ext=mp4]+ba[ext=m4a]/b[ext=mp4]" ] /\
  ends_with (run Worlds.disk_full Worlds.video_job)
            (failed "ERROR: [Errno 28] No space left on device").
Proof.
  apply (video_unclassified_error_is_final Worlds.disk_full Worlds.video_job 1
           (String ESC "[0;31mERROR:" ++ String ESC "[0m [Errno 28] No space left on device")).
  - reflexivity.
  - reflexivity.
  - simpl. lia.
  - intros i Hi. destruct i as [|i]; [|lia].
    eexists. split; reflexivity.
  - reflexivity.
  - reflexivity.
Defined.

(** ** Locating the audio file *)

(** C7. After a successful audio download the worker tries [base.mp3],
    [base.m4a] and [base.webm] in that order and reports the first one
    that exists (the name given by the client when none does); when the
    [.mp3] is absent and the [.m4a] exists, [done] carries the [.m4a]
    path. *)
Theorem audio_output_resolution (w : world) (self : Downloader) (filename : string) :
  mkdir_raises w = None ->
  kind self = "audio"%string ->
  ce_out (call_client w 0 (_stop self) (audio_opts (template_of self)))
    = Returns filename ->
  let base := fst (splitext w filename) in
  exists path,
    ends_with (run w self) (done path) /\
    path = first_existing w [base ++ ".mp3"; base ++ ".m4a"; base ++ ".webm"]%string filename /\
    (path_exists w (base ++ ".mp3") = true -> path = (base ++ ".mp3")%string) /\
    (path_exists w (base ++ ".mp3") = false ->
     path_exists w (base ++ ".m4a") = true -> path = (base ++ ".m4a")%string) /\
    (path_exists w (base ++ ".mp3") = false ->
     path_exists w (base ++ ".m4a") = false ->
     path_exists w (base ++ ".webm") = true -> path = (base ++ ".webm")%string).
Proof.
  intros Hmk Hkind Hout base. eexists. split; [|split; [reflexivity|]].
  - unfold run, run_audio. rewrite Hmk, Hkind, Hout. simpl String.eqb. cbv iota.
    change (Call ?o :: ?tr ++ ?x) with ((Call o :: tr) ++ x).
    apply ends_with_prepend; [|apply ends_with_single].
    apply only_progress_cons_call, call_client_only_progress.
  - fold base. simpl. repeat split.
    + intros ->. reflexivity.
    + intros -> ->. reflexivity.
    + intros -> -> ->. reflexivity.
Qed.

Lemma audio_output_resolution_witness :
  exists path,
    ends_with (run Worlds.only_m4a Worlds.audio_job) (done path) /\
    path = "/music/Song [abc].m4a"%string.
Proof.
  destruct (audio_output_resolution Worlds.only_m4a Worlds.audio_job
              "/music/Song [abc].webm" eq_refl eq_refl eq_refl)
    as (path & He & _ & _ & Hm4a & _).
  exists path. split; [exact He|].
  apply Hm4a; reflexivity.
Defined.

(** ** Cancellation *)

Section Cancellation.

Lemma flag_after_app (flag : bool) (a b : list obs) :
  flag_after flag (a ++ b) = flag_after (flag_after flag a) b.
Proof. unfold flag_after. rewrite existsb_app, orb_assoc. reflexivity. Qed.

Lemma flags_read_app (a b : list obs) :
  forall flag,
  flags_read flag a -> flags_read (flag_after flag a) b -> flags_read flag (a ++ b).
Proof.
  induction a as [|o a IH]; intros flag Ha Hb.
  - simpl. unfold flag_after in Hb. simpl in Hb. rewrite orb_false_r in Hb. exact Hb.
  - destruct o as [o'|f d| |s]; simpl in *.
    + apply IH; assumption.
    + destruct Ha as [-> Ha]. split; [reflexivity|]. apply IH; assumption.
    + apply IH; [exact Ha|]. unfold flag_after in *. simpl in *.
      rewrite orb_true_r in Hb. exact Hb.
    + apply IH; assumption.
Qed.

Lemma flags_read_split (a c : list obs) (f : bool) (d : payload) :
  forall flag,
  flags_read flag (a ++ HookCall f d :: c) -> f = flag_after flag a.
Proof.
  induction a as [|o a IH]; intros flag H.
  - simpl in H. destruct H as [-> _]. unfold flag_after. simpl.
    rewrite orb_false_r. reflexivity.
  - destruct o as [o'|f' d'| |s]; simpl in H.
    + apply IH, H.
    + destruct H as [_ H]. apply IH, H.
    + rewrite (IH true H). unfold flag_after. simpl. rewrite orb_true_r. reflexivity.
    + apply IH, H.
Qed.

Lemma drive_flags_read (st : list client_step) (fin : outcome) :
  forall flag,
  flags_read flag (ce_trace (drive flag st fin)) /\
  ce_stop (drive flag st fin) = flag_after flag (ce_trace (drive flag st fin)).
Proof.
  unfold flag_after.
  induction st as [|s r IH]; intro flag; simpl.
  - split; [exact I | rewrite orb_false_r; reflexivity].
  - destruct s as [d|].
    + destruct (_hook flag d); simpl.
      * split; [split; [reflexivity | exact I] | rewrite orb_false_r; reflexivity].
      * destruct (IH flag) as [H1 H2]. repeat split; assumption.
      * destruct (IH flag) as [H1 H2]. repeat split; assumption.
    + destruct (IH true) as [H1 H2]. simpl in *. split; [exact H1|].
      rewrite H2, orb_true_r. reflexivity.
Qed.

Lemma drive_aborts (st : list client_step) (fin : outcome) (rest : list obs) :
  forall flag,
  (ce_out (drive flag st fin) = Raises cancel_msg -> rest = [Emit (failed cancel_msg)]) ->
  aborts_on_cancel rest ->
  aborts_on_cancel (ce_trace (drive flag st fin) ++ rest).
Proof.
  induction st as [|s r IH]; intros flag Hout Hrest; simpl in *.
  - exact Hrest.
  - destruct s as [d|]; [|apply IH; assumption].
    destruct flag; simpl in *.
    + apply Hout. reflexivity.
    + destruct (if status_is d "downloading" then _ else _); simpl in *.
      * exact Hrest.
      * apply IH; assumption.
      * apply IH; assumption.
Qed.

Lemma aborts_on_cancel_split (a c : list obs) (d : payload) :
  aborts_on_cancel (a ++ HookCall true d :: c) -> c = [Emit (failed cancel_msg)].
Proof.
  induction a as [|o a IH]; simpl; [exact (fun H => H)|].
  destruct o as [o'|f d'| |s]; try exact IH.
  destruct f; [|exact IH].
  intro H. destruct a as [|x [|y a]]; simpl in H; discriminate H.
Qed.

Variable w : world.

Lemma clean_cancel_msg : clean_err (PStr cancel_msg) = cancel_msg.
Proof. reflexivity. Qed.

Lemma video_loop_cancel (template : string) (fmts : list string) :
  forall flag n last,
  flags_read flag (video_loop w template flag n fmts last) /\
  aborts_on_cancel (video_loop w template flag n fmts last).
Proof.
  induction fmts as [|fmt rest IH]; intros flag n last; simpl; [split; exact I|].
  set (c := call_client w n flag (video_opts template fmt)).
  destruct (drive_flags_read (steps (client w n (video_opts template fmt)))
                             (ending (client w n (video_opts template fmt))) flag)
    as [Hread Hstop].
  fold (call_client w n flag (video_opts template fmt)) in Hread, Hstop. fold c in Hread, Hstop.
  split.
  - apply flags_read_app; [exact Hread|]. rewrite <- Hstop.
    destruct (ce_out c) as [ex|filename]; [|exact I].
    destruct (retryable ex); [apply IH | exact I].
  - apply drive_aborts.
    + fold (call_client w n flag (video_opts template fmt)). fold c.
      intros ->. reflexivity.
    + fold (call_client w n flag (video_opts template fmt)). fold c.
      destruct (ce_out c) as [ex|filename]; [|exact I].
      destruct (retryable ex); [apply IH | exact I].
Qed.

Lemma run_cancel (self : Downloader) :
  flags_read (_stop self) (run w self) /\ aborts_on_cancel (run w self).
Proof.
  unfold run. destruct (mkdir_raises w); [split; exact I|].
  destruct (String.eqb (kind self) "audio"); [|apply video_loop_cancel].
  unfold run_audio. set (o := audio_opts (template_of self)).
  set (c := call_client w 0 (_stop self) o).
  destruct (drive_flags_read (steps (client w 0 o)) (ending (client w 0 o)) (_stop self))
    as [Hread Hstop].
  fold (call_client w 0 (_stop self) o) in Hread, Hstop. fold c in Hread, Hstop.
  split.
  - simpl. apply flags_read_app; [exact Hread|].
    destruct (ce_out c); exact I.
  - simpl. apply drive_aborts.
    + fold (call_client w 0 (_stop self) o). fold c. intros ->. reflexivity.
    + fold (call_client w 0 (_stop self) o). fold c. destruct (ce_out c); exact I.
Qed.

End Cancellation.

(** C2 (amended). The hook tests the flag before anything else: with the
    flag set it raises for every payload.  A hook invocation that comes
    after [stop()] (or in a job whose flag was already set) reads the
    flag set, raises, and the job goes on with [failed] and nothing else:
    no [done] is emitted.  Nothing is promised for a [stop()] that no
    hook invocation follows. *)
Theorem cancel_takes_effect_at_next_callback
        (w : world) (self : Downloader)
        (a c : list obs) (flag : bool) (d : payload) :
  run w self = a ++ HookCall flag d :: c ->
  _stop self = true \/ In StopReq a ->
  flag = true /\
  (forall d', _hook true d' = HRaise cancel_msg) /\
  c = [Emit (failed cancel_msg)] /\
  ends_with (run w self) (failed cancel_msg) /\
  (forall p, ~ In (done p) (signals (run w self))).
Proof.
  intros E Hreq.
  destruct (run_cancel w self) as [Hread Habort]. rewrite E in Hread, Habort.
  assert (Hflag : flag = true).
  { rewrite (flags_read_split a c flag d _ Hread). unfold flag_after.
    destruct Hreq as [-> | Hin]; [reflexivity|].
    apply orb_true_iff. right. apply existsb_exists.
    exists StopReq. split; [exact Hin | reflexivity]. }
  subst flag.
  assert (Hc : c = [Emit (failed cancel_msg)]) by exact (aborts_on_cancel_split a c d Habort).
  subst c.
  assert (Hends : ends_with (run w self) (failed cancel_msg)).
  { destruct (run_ends w self) as (t & _ & body & Eb & Hb).
    exists body. split; [|exact Hb]. rewrite Eb. rewrite Eb in E.
    change (a ++ HookCall true d :: [Emit (failed cancel_msg)])
      with (a ++ [HookCall true d] ++ [Emit (failed cancel_msg)]) in E.
    rewrite app_assoc in E. apply app_inj_tail in E. destruct E as [_ E].
    rewrite E. reflexivity. }
  repeat split; try assumption; try reflexivity.
  intros p Hin. destruct Hends as (body & Eb & Hb).
  rewrite Eb, signals_app in Hin. apply in_app_or in Hin. destruct Hin as [Hin|Hin].
  - unfold only_progress in Hb. rewrite Forall_forall in Hb.
    specialize (Hb _ Hin). discriminate Hb.
  - simpl in Hin. destruct Hin as [Hin|[]]. discriminate Hin.
Qed.

Lemma cancel_takes_effect_at_next_callback_witness :
  ends_with (run Worlds.early_stop Worlds.audio_job) (failed "Cancelado por el usuario").
Proof.
  pose proof (cancel_takes_effect_at_next_callback
                Worlds.early_stop Worlds.audio_job
                (firstn 4 (run Worlds.early_stop Worlds.audio_job))
                [Emit (failed cancel_msg)] true (Worlds.downloading 4096 4096)
                eq_refl) as H.
  apply H. right. simpl. right. right. right. left. reflexivity.
Defined.

(** C2, as stated, fails: a [stop()] that arrives after the last hook
    invocation of the client call, while the job is still running, is
    followed by [done]. *)
Lemma done_after_late_cancel_request :
  _stop Worlds.audio_job = false /\
  exists body,
    run Worlds.late_stop Worlds.audio_job =
    body ++ [StopReq; Emit (done "/music/Song [abc].mp3")].
Proof.
  split; [reflexivity|].
  exists (removelast (removelast (run Worlds.late_stop Worlds.audio_job))).
  reflexivity.
Qed.

(** ** Rounding to binary64 stays below a representable bound *)

Section Rounding.

Local Open Scope Z_scope.

Variables kB eB : Z.
Hypothesis kB_pos : 0 < kB.
Hypothesis eB_lo : -1074 <= eB.
Hypothesis eB_hi : eB <= 971.
Hypothesis kB_digits : Zdigits2 kB <= 53.

Lemma bound_at_step (e : Z) : e + 1 <= eB -> bound_at kB eB e = 2 * bound_at kB eB (e + 1).
Proof.
  intro H. unfold bound_at. replace (eB - e) with (Z.succ (eB - (e + 1))) by lia.
  rewrite Z.pow_succ_r by lia. lia.
Qed.

(** One shift to the right. *)
Lemma shr_1_fits (mrs : shr_record) (e : Z) :
  fits kB eB mrs e -> e + 1 <= eB -> fits kB eB (shr_1 mrs) (e + 1).
Proof.
  unfold fits, inexact. intros (H0 & He & Hk) H1. rewrite (bound_at_step e H1) in Hk.
  destruct mrs as [m r s]. cbn [shr_m shr_r shr_s] in *.
  destruct m as [|[p|p|]|p]; destruct r, s;
    cbn [shr_1 shr_m shr_r shr_s orb] in *; repeat split; lia.
Qed.

Lemma iter_shr_1_fits (p : positive) :
  forall mrs e,
  fits kB eB mrs e -> e + Zpos p <= eB ->
  fits kB eB (iter_pos shr_1 p mrs) (e + Zpos p).
Proof.
  induction p as [p IH|p IH|]; intros mrs e H He; cbn [iter_pos].
  - replace (e + Zpos p~1) with ((e + 1 + Zpos p) + Zpos p) by lia.
    apply IH; [|lia]. apply IH; [|lia]. apply shr_1_fits; [exact H | lia].
  - replace (e + Zpos p~0) with ((e + Zpos p) + Zpos p) by lia.
    apply IH; [|lia]. apply IH; [exact H | lia].
  - apply shr_1_fits; assumption.
Qed.

(** A positive number of [d] binary digits is in [[2^(d-1), 2^d)]. *)
Lemma digits2_pos_bounds (p : positive) :
  2 ^ Zpos (digits2_pos p) <= 2 * Zpos p /\ Zpos p < 2 ^ Zpos (digits2_pos p).
Proof.
  induction p as [p IH|p IH|]; cbn [digits2_pos].
  - rewrite Pos2Z.inj_succ, (Pos2Z.inj_xI p), Z.pow_succ_r by lia.
    revert IH. generalize (2 ^ Zpos (digits2_pos p)). clear. intros z [H1 H2]. split; lia.
  - rewrite Pos2Z.inj_succ, (Pos2Z.inj_xO p), Z.pow_succ_r by lia.
    revert IH. generalize (2 ^ Zpos (digits2_pos p)). clear. intros z [H1 H2]. split; lia.
  - cbn. lia.
Qed.

(** The exponent that binary64 gives to a number below the bound is at
    most the exponent of the bound. *)
Lemma fexp_bound (m e : Z) :
  0 <= m -> e <= eB -> m <= bound_at kB eB e -> fexp 53 1024 (Zdigits2 m + e) <= eB.
Proof.
  intros H0 He Hk. unfold fexp, emin.
  assert (Zdigits2 m + e <= 53 + eB); [|apply Z.max_lub; lia].
  destruct m as [|p|p]; [cbn [Zdigits2]; lia| |lia].
  cbn [Zdigits2]. pose proof (digits2_pos_bounds p) as [Hlo _].
  destruct kB as [|q|q] eqn:EkB; try lia.
  pose proof (digits2_pos_bounds q) as [_ Hhi]. cbn [Zdigits2] in kB_digits.
  assert (Hlt : 2 ^ Zpos (digits2_pos p) < 2 ^ (Zpos (digits2_pos q) + (eB - e) + 1)).
  { rewrite Z.pow_add_r, Z.pow_add_r, Z.pow_1_r by lia. unfold bound_at in Hk.
    assert (0 < 2 ^ (eB - e)) by (apply Z.pow_pos_nonneg; lia).
    revert Hlo Hhi Hk H.
    generalize (2 ^ Zpos (digits2_pos p)) (2 ^ Zpos (digits2_pos q)) (2 ^ (eB - e)).
    intros a b c. nia. }
  apply Z.pow_lt_mono_r_iff in Hlt; lia.
Qed.

Lemma record_of_loc_fits (m e : Z) (l : location) :
  0 <= m -> e <= eB ->
  m + (match l with loc_Exact => 0 | _ => 1 end) <= bound_at kB eB e ->
  fits kB eB (shr_record_of_loc m l) e.
Proof.
  intros H0 He Hk. unfold fits, inexact.
  destruct l as [|[| |]]; cbn; repeat split; lia.
Qed.

Lemma shr_fexp_fits (m e : Z) (l : location) :
  0 <= m -> e <= eB ->
  m + (match l with loc_Exact => 0 | _ => 1 end) <= bound_at kB eB e ->
  fits kB eB (fst (shr_fexp 53 1024 m e l)) (snd (shr_fexp 53 1024 m e l)).
Proof.
  intros H0 He Hk. unfold shr_fexp, shr.
  pose proof (record_of_loc_fits m e l H0 He Hk) as HF.
  assert (Hf : fexp 53 1024 (Zdigits2 m + e) <= eB).
  { apply fexp_bound; try assumption. destruct l; lia. }
  destruct (fexp 53 1024 (Zdigits2 m + e) - e) as [|p|p] eqn:E; cbn [fst snd]; try exact HF.
  apply iter_shr_1_fits; [exact HF | lia].
Qed.

(** Rounding to nearest moves up by at most one unit, and not at all
    from an exact position. *)
Lemma round_nearest_even_le (mrs : shr_record) :
  shr_m mrs <= round_nearest_even (shr_m mrs) (loc_of_shr_record mrs)
            <= shr_m mrs + inexact mrs.
Proof.
  unfold inexact. destruct mrs as [m r s]. destruct r, s; cbn; try lia.
  destruct (Z.even m); lia.
Qed.

(** The rounding of a number between 0 and the bound is a float between
    [+0] and the bound: it is neither an infinity nor a NaN. *)
Lemma binary_round_aux_below (m e : Z) (l : location) :
  0 <= m -> e <= eB ->
  m + (match l with loc_Exact => 0 | _ => 1 end) <= bound_at kB eB e ->
  below kB eB (binary_round_aux 53 1024 false m e l).
Proof.
  intros H0 He Hk. unfold binary_round_aux.
  pose proof (shr_fexp_fits m e l H0 He Hk) as HF.
  destruct (shr_fexp 53 1024 m e l) as [mrs' e']. cbn [fst snd] in HF.
  destruct HF as (H0' & He' & Hk').
  pose proof (round_nearest_even_le mrs') as [Hr0 Hr1].
  set (mr := round_nearest_even (shr_m mrs') (loc_of_shr_record mrs')) in *.
  assert (Hm0 : 0 <= mr) by lia.
  assert (Hmk : mr + 0 <= bound_at kB eB e') by lia.
  pose proof (shr_fexp_fits mr e' loc_Exact Hm0 He' Hmk) as HF2.
  destruct (shr_fexp 53 1024 mr e' loc_Exact) as [mrs'' e'']. cbn [fst snd] in HF2.
  destruct HF2 as (H0'' & He'' & Hk''). unfold inexact in Hk''.
  destruct (shr_m mrs'') as [|p|p] eqn:Em.
  - exact I.
  - replace (e'' <=? 1024 - 53) with true by (symmetry; apply Z.leb_le; lia).
    cbn [below]. split; [exact He''|]. destruct (shr_r mrs'' || shr_s mrs''); lia.
  - lia.
Qed.

End Rounding.

Section Binary64.

Local Open Scope Z_scope.

Lemma below_one_ok : 0 < 1 /\ -1074 <= 0 /\ 0 <= 971 /\ Zdigits2 1 <= 53.
Proof. cbn. lia. Qed.

Lemma below_100_ok : 0 < 25 /\ -1074 <= 2 /\ 2 <= 971 /\ Zdigits2 25 <= 53.
Proof. cbn. lia. Qed.

(** The integer quotient computed by the division, with its position. *)
Lemma div_core_fits (p q : positive) :
  Zpos p <= Zpos q ->
  let '(mz, ez, lz) := SFdiv_core_binary 53 1024 (Zpos p) 0 (Zpos q) 0 in
  0 <= mz /\ ez <= 0 /\
  mz + (match lz with loc_Exact => 0 | _ => 1 end) <= bound_at 1 0 ez.
Proof.
  intro Hle. unfold SFdiv_core_binary.
  set (e' := Z.min (fexp 53 1024 (Zdigits2 (Zpos p) + 0 - (Zdigits2 (Zpos q) + 0))) (0 - 0)).
  assert (He' : e' <= 0) by (apply Z.le_min_r).
  set (s := 0 - 0 - e').
  assert (Hs : s = - e') by (unfold s; lia).
  set (m' := match s with Zpos _ => Z.shiftl (Zpos p) s | Z0 => Zpos p | Zneg _ => 0 end).
  assert (Hm' : m' = Zpos p * 2 ^ s).
  { unfold m'. destruct s as [|k|k] eqn:Es.
    - rewrite Z.pow_0_r. lia.
    - apply Z.shiftl_mul_pow2. lia.
    - lia. }
  pose proof (Z_div_mod m' (Zpos q) ltac:(lia)) as Hdiv.
  destruct (Z.div_eucl m' (Zpos q)) as [q0 r]. destruct Hdiv as [Hq Hr].
  assert (Hpow : 0 < 2 ^ s) by (apply Z.pow_pos_nonneg; lia).
  assert (Hq0 : 0 <= q0) by nia.
  unfold bound_at. replace (0 - e') with s by lia. rewrite Z.mul_1_l.
  split; [exact Hq0|]. split; [exact He'|].
  unfold new_location, new_location_even, new_location_odd.
  cbv beta iota zeta.
  destruct (Z.even (Zpos q)); destruct (Z.eqb_spec r 0) as [Hr0|Hr0]; nia.
Qed.

(** A quotient of a zero numerator is a zero. *)
Lemma truediv_num_zero (a b : Q) :
  Qnum a = 0 -> Qnum b <> 0 -> Py64.truediv a b = S754_zero (Qnum b <? 0).
Proof.
  intros Ha Hb. unfold Py64.truediv. rewrite Ha, Z.mul_0_l.
  destruct (Qnum b) as [|n|n]; [contradiction | reflexivity | reflexivity].
Qed.

(** The quotient of a positive number by a larger one is at most 1. *)
Lemma truediv_below_one (a b : Q) :
  0 < Qnum a -> (a <= b)%Q -> below 1 0 (Py64.truediv a b).
Proof.
  intros Ha Hab. unfold Py64.truediv. unfold Qle in Hab.
  assert (Hn : 0 < Qnum a * Zpos (Qden b)) by lia.
  assert (Hle : Qnum a * Zpos (Qden b) <= Zpos (Qden a) * Qnum b) by lia.
  destruct (Qnum a * Zpos (Qden b)) as [|p|p]; try lia.
  destruct (Zpos (Qden a) * Qnum b) as [|q|q]; try lia.
  cbn [Py64.of_Z SFdiv xorb].
  pose proof (div_core_fits p q Hle) as H.
  destruct (SFdiv_core_binary 53 1024 (Zpos p) 0 (Zpos q) 0) as [[mz ez] lz].
  destruct H as (H0 & He & Hk).
  destruct below_one_ok as (B1 & B2 & B3 & B4).
  apply (binary_round_aux_below 1 0 B1 B2 B3 B4); assumption.
Qed.

(** A number of at most 1 times [100.0] is at most 100. *)
Lemma mul_f100_below (x : spec_float) :
  below 1 0 x -> below 25 2 (Py64.mul x Py64.f100).
Proof.
  destruct x as [[|]| | |[|] m e]; cbn [below]; try contradiction.
  - intros _. exact I.
  - intros [He Hm]. unfold Py64.mul, Py64.f100. cbn [SFmul xorb].
    destruct below_100_ok as (B1 & B2 & B3 & B4).
    apply (binary_round_aux_below 25 2 B1 B2 B3 B4); [lia | lia |].
    unfold bound_at in *. rewrite Pos2Z.inj_mul.
    replace (2 - (e + -46)) with (48 + (0 - e)) by lia.
    rewrite Z.pow_add_r by lia.
    assert (0 < 2 ^ (0 - e)) by (apply Z.pow_pos_nonneg; lia).
    change (2 ^ 48) with 281474976710656.
    revert Hm H. generalize (2 ^ (0 - e)). intros c Hm H. lia.
Qed.

(** What [below 25 2] says of the value. *)
Lemma below_100_value (x : spec_float) :
  below 25 2 x ->
  Py64.is_finite x = true /\ Py64.sign_of x = false /\
  (0 <= Py64.value x <= 100)%Q.
Proof.
  destruct x as [[|]| | |[|] m e]; cbn [below]; try contradiction.
  - intros _. repeat split; discriminate.
  - intros [He Hm]. split; [reflexivity|]. split; [reflexivity|].
    unfold bound_at in Hm. cbn [Py64.value].
    destruct e as [|k|k].
    + unfold Qle. cbn. change (2 ^ (2 - 0)) with 4 in Hm. lia.
    + assert (Hk : Zpos k = 1 \/ Zpos k = 2) by lia.
      destruct Hk as [Hk|Hk]; injection Hk as ->; cbn in *; unfold Qle; cbn; lia.
    + unfold Qle. cbn [Qnum Qden]. rewrite Pos2Z.inj_pow.
      replace (2 - Zneg k) with (2 + Zpos k) in Hm by lia.
      rewrite Z.pow_add_r in Hm by lia. change (2 ^ 2) with 4 in Hm.
      assert (0 < 2 ^ Zpos k) by (apply Z.pow_pos_nonneg; lia).
      revert Hm H. generalize (2 ^ Zpos k). intros c Hm H. lia.
Qed.

End Binary64.

(** ** Progress normalization *)

Section Progress.

Lemma append_assoc (a b c : string) : ((a ++ b) ++ c = a ++ (b ++ c))%string.
Proof. induction a as [|x a IH]; simpl; [reflexivity | rewrite IH; reflexivity]. Qed.

Lemma append_empty_r (a : string) : (a ++ "" = a)%string.
Proof. induction a as [|x a IH]; simpl; [reflexivity | rewrite IH; reflexivity]. Qed.

(** [round_half_even] gives the nearest integer, the even one of two. *)
Lemma round_half_even_nearest (q : Q) :
  (0 <= q)%Q ->
  (0 <= round_half_even q)%Z /\
  (Qabs (q - inject_Z (round_half_even q)) <= 1 # 2)%Q /\
  ((Qabs (q - inject_Z (round_half_even q)) == 1 # 2)%Q ->
   Z.even (round_half_even q) = true).
Proof.
  destruct q as [n d]. unfold Qle, round_half_even. cbn [Qnum Qden].
  intro Hn. rewrite Z.mul_0_l, Z.mul_1_r in Hn.
  pose proof (Z_div_mod_eq_full n (Zpos d)) as Hdm.
  pose proof (Z.mod_pos_bound n (Zpos d) ltac:(lia)) as Hr.
  assert (Hfl : (0 <= n / Zpos d)%Z) by (apply Z.div_pos; lia).
  set (fl := (n / Zpos d)%Z) in *. set (r := (n mod Zpos d)%Z) in *.
  assert (Hab : forall t : Z,
            Qabs (Qmake n d - inject_Z t)%Q = Qmake (Z.abs (n - t * Zpos d)) d).
  { intro t. unfold Qminus, Qplus, Qopp, inject_Z, Qabs. cbn [Qnum Qden].
    rewrite Pos.mul_1_r. f_equal. f_equal. lia. }
  destruct (Z.compare_spec (2 * r) (Zpos d)) as [Hc|Hc|Hc].
  - destruct (Z.even fl) eqn:Ev.
    + split; [exact Hfl|]. rewrite Hab. unfold Qle, Qeq. cbn [Qnum Qden].
      split; [lia | intros _; exact Ev].
    + split; [lia|]. rewrite Hab. unfold Qle, Qeq. cbn [Qnum Qden].
      split; [lia|]. intros _. rewrite Z.even_add, Ev. reflexivity.
  - split; [exact Hfl|]. rewrite Hab. unfold Qle, Qeq. cbn [Qnum Qden].
    split; lia.
  - split; [lia|]. rewrite Hab. unfold Qle, Qeq. cbn [Qnum Qden].
    split; lia.
Qed.

(** The text of [fmt_1f] is the number written with one decimal. *)
Lemma fmt_1f_correct (x : spec_float) : is_one_decimal x (fmt_1f x).
Proof.
  assert (H : forall y : spec_float,
            exists t : Z,
              (0 <= t)%Z /\
              (Qabs (Qabs (Py64.value y) * 10 - inject_Z t) <= 1 # 2)%Q /\
              ((Qabs (Qabs (Py64.value y) * 10 - inject_Z t) == 1 # 2)%Q ->
               Z.even t = true) /\
              ((if Py64.sign_of y then "-" else "")
               ++ PyStr.str_int (round_half_even (Qabs (Py64.value y) * 10) / 10)%Z
               ++ "." ++ PyStr.str_int (round_half_even (Qabs (Py64.value y) * 10) mod 10)%Z
               = (if Py64.sign_of y then "-" else "")
                 ++ PyStr.str_int (t / 10)%Z ++ "." ++ PyStr.str_int (t mod 10)%Z)%string).
  { intro y. exists (round_half_even (Qabs (Py64.value y) * 10)).
    destruct (round_half_even_nearest (Qabs (Py64.value y) * 10)) as (H0 & H1 & H2).
    - apply Qmult_le_0_compat; [apply Qabs_nonneg | discriminate].
    - repeat split; assumption. }
  destruct x as [s|s| |s m e]; try reflexivity.
  - exact (H (S754_zero s)).
  - exact (H (S754_finite s m e)).
Qed.

(** There is one nearest integer with ties to even. *)
Lemma nearest_even_unique (q : Q) (t t' : Z) :
  (Qabs (q - inject_Z t) <= 1 # 2)%Q ->
  ((Qabs (q - inject_Z t) == 1 # 2)%Q -> Z.even t = true) ->
  (Qabs (q - inject_Z t') <= 1 # 2)%Q ->
  ((Qabs (q - inject_Z t') == 1 # 2)%Q -> Z.even t' = true) ->
  t = t'.
Proof.
  destruct q as [n d].
  assert (Hab : forall u : Z,
            Qabs (Qmake n d - inject_Z u)%Q = Qmake (Z.abs (n - u * Zpos d)) d).
  { intro u. unfold Qminus, Qplus, Qopp, inject_Z, Qabs. cbn [Qnum Qden].
    rewrite Pos.mul_1_r. f_equal. f_equal. lia. }
  rewrite !Hab. unfold Qle, Qeq. cbn [Qnum Qden].
  intros H1 E1 H2 E2.
  assert (Hd : (-1 <= t' - t <= 1)%Z) by nia.
  assert (Hc : (t' = t \/ t' = t + 1 \/ t' = t - 1)%Z) by lia.
  destruct Hc as [Hc|[Hc|Hc]]; [symmetry; exact Hc | exfalso | exfalso]; subst t'.
  - assert (Ev : Z.even t = true) by (apply E1; lia).
    assert (Ev' : Z.even (t + 1) = true) by (apply E2; lia).
    rewrite Z.even_add, Ev in Ev'. discriminate Ev'.
  - assert (Ev : Z.even t = true) by (apply E1; lia).
    assert (Ev' : Z.even (t - 1) = true) by (apply E2; lia).
    rewrite Z.even_sub, Ev in Ev'. discriminate Ev'.
Qed.

(** A number has one text with one decimal. *)
Lemma is_one_decimal_unique (x : spec_float) (s s' : string) :
  is_one_decimal x s -> is_one_decimal x s' -> s = s'.
Proof.
  assert (H : forall y : spec_float,
            (exists t : Z,
               (0 <= t)%Z /\
               (Qabs (Qabs (Py64.value y) * 10 - inject_Z t) <= 1 # 2)%Q /\
               ((Qabs (Qabs (Py64.value y) * 10 - inject_Z t) == 1 # 2)%Q ->
                Z.even t = true) /\
               s = ((if Py64.sign_of y then "-" else "")
                    ++ PyStr.str_int (t / 10)%Z ++ "." ++ PyStr.str_int (t mod 10)%Z)%string) ->
            (exists t : Z,
               (0 <= t)%Z /\
               (Qabs (Qabs (Py64.value y) * 10 - inject_Z t) <= 1 # 2)%Q /\
               ((Qabs (Qabs (Py64.value y) * 10 - inject_Z t) == 1 # 2)%Q ->
                Z.even t = true) /\
               s' = ((if Py64.sign_of y then "-" else "")
                     ++ PyStr.str_int (t / 10)%Z ++ "." ++ PyStr.str_int (t mod 10)%Z)%string) ->
            s = s').
  { intros y (t & _ & A1 & A2 & ->) (t' & _ & B1 & B2 & ->).
    rewrite (nearest_even_unique _ t t' A1 A2 B1 B2). reflexivity. }
  destruct x as [sg|sg| |sg m e].
  - exact (H (S754_zero sg)).
  - cbn. congruence.
  - cbn. congruence.
  - exact (H (S754_finite sg m e)).
Qed.

Lemma py_or_known (x : option Q) (y : Q) :
  py_or x y = match known x with Some q => q | None => y end.
Proof. destruct x as [q|]; simpl; [destruct (Qeq_bool q 0)|]; reflexivity. Qed.

Lemma known_nonzero (x : option Q) (q : Q) : known x = Some q -> Qeq_bool q 0 = false.
Proof.
  destruct x as [v|]; simpl; [|discriminate].
  destruct (Qeq_bool v 0) eqn:E; [discriminate|]. intros [= <-]. exact E.
Qed.

Lemma hook_total_spec (d : payload) :
  hook_total d = match spec_total d with Some t => t | None => 0%Q end.
Proof.
  unfold hook_total, spec_total. rewrite !py_or_known.
  destruct (known (total_bytes d)); reflexivity.
Qed.

Lemma spec_total_nonzero (d : payload) (t : Q) :
  spec_total d = Some t -> Qeq_bool t 0 = false.
Proof.
  unfold spec_total. destruct (known (total_bytes d)) as [q|] eqn:E.
  - intros [= <-]. exact (known_nonzero _ _ E).
  - apply known_nonzero.
Qed.

Lemma Qeq_bool_num (q : Q) : Qeq_bool q 0 = (Qnum q =? 0)%Z.
Proof.
  unfold Qeq_bool. cbn [Qnum Qden]. rewrite Z.mul_1_r, Z.mul_0_l. reflexivity.
Qed.

(** [x or 0] and [x] give the same quotient. *)
Lemma truediv_got (d : payload) (t : Q) :
  Qeq_bool t 0 = false ->
  Py64.truediv (hook_got d) t = Py64.truediv (spec_downloaded d) t.
Proof.
  intro Ht. rewrite Qeq_bool_num in Ht. apply Z.eqb_neq in Ht.
  unfold hook_got, spec_downloaded, py_or.
  destruct (downloaded_bytes d) as [g|]; [|reflexivity].
  destruct (Qeq_bool g 0) eqn:E; [|reflexivity].
  rewrite Qeq_bool_num in E. apply Z.eqb_eq in E.
  rewrite (truediv_num_zero 0 t eq_refl Ht), (truediv_num_zero g t E Ht).
  reflexivity.
Qed.

Lemma hook_pct_known (d : payload) (t : Q) :
  spec_total d = Some t ->
  hook_pct d = Py64.mul (Py64.truediv (spec_downloaded d) t) Py64.f100.
Proof.
  intro E. unfold hook_pct. rewrite hook_total_spec, E.
  pose proof (spec_total_nonzero d t E) as Hnz. rewrite Hnz. cbn [negb].
  rewrite (truediv_got d t Hnz). reflexivity.
Qed.

Lemma hook_pct_unknown (d : payload) : spec_total d = None -> hook_pct d = S754_zero false.
Proof.
  intro E. unfold hook_pct. rewrite hook_total_spec, E. reflexivity.
Qed.

(** Within the total, the percent is a zero or a float between [+0] and
    [100.0]. *)
Lemma hook_pct_range (d : payload) :
  within_total d ->
  (exists s, hook_pct d = S754_zero s) \/ below 25 2 (hook_pct d).
Proof.
  intro Hw. destruct (spec_total d) as [t|] eqn:E.
  - rewrite (hook_pct_known d t E).
    pose proof (spec_total_nonzero d t E) as Hnz.
    rewrite Qeq_bool_num in Hnz. apply Z.eqb_neq in Hnz.
    unfold within_total, spec_downloaded in *.
    destruct (downloaded_bytes d) as [g|].
    + destruct Hw as [H0 Ht]. specialize (Ht t E).
      destruct (Z.eq_dec (Qnum g) 0) as [Hg|Hg].
      * left. rewrite (truediv_num_zero g t Hg Hnz). eexists. reflexivity.
      * right. apply mul_f100_below, truediv_below_one; [|exact Ht].
        unfold Qle in H0. cbn [Qnum Qden] in H0. lia.
    + left. rewrite (truediv_num_zero 0 t eq_refl Hnz). eexists. reflexivity.
  - left. rewrite (hook_pct_unknown d E). eexists. reflexivity.
Qed.

(** The parts of the progress text. *)
Lemma hook_txt_parts (d : payload) :
  hook_txt d =
  (fmt_1f (hook_pct d) ++ "%"
   ++ match known (speed d) with
      | Some v => " • " ++ fmt_1f (Py64.truediv v 1024) ++ " KiB/s"
      | None => ""
      end
   ++ match eta d with
      | Some e => if Z.eqb e 0 then "" else " • ETA " ++ PyStr.str_int e ++ "s"
      | None => ""
      end)%string.
Proof.
  unfold hook_txt, known, truthy, truthy_int.
  destruct (speed d) as [v|]; [destruct (Qeq_bool v 0)|];
    (destruct (eta d) as [e|]; [destruct (Z.eqb e 0)|]); cbn [negb];
    rewrite ?append_assoc, ?append_empty_r; reflexivity.
Qed.

End Progress.

(** C5. A payload tagged [downloading] makes the hook emit the percent
    [downloaded / total * 100.0], computed in binary64, when a total
    (exact, else estimated) is known and [0.0] otherwise, with a text
    made of the percent written with one decimal and a percent sign, of
    the speed divided by 1024 written with one decimal and [KiB/s] when
    there is a speed, and of the ETA in seconds when there is one, the
    parts separated by a bullet; a payload tagged [finished] makes it
    emit [100.0] with the post-processing text; any other payload emits
    nothing. *)
Theorem hook_progress_normalization (d : payload) (tag : string) :
  status d = Some tag ->
  (tag = "downloading"%string ->
   exists (pct : spec_float) (ptxt stxt : string),
     _hook false d =
       HEmit pct
         (ptxt ++ "%"
          ++ match known (speed d) with
             | Some _ => " • " ++ stxt ++ " KiB/s"
             | None => ""
             end
          ++ match eta d with
             | Some e => if Z.eqb e 0 then "" else " • ETA " ++ PyStr.str_int e ++ "s"
             | None => ""
             end)%string /\
     (forall t, spec_total d = Some t ->
                pct = Py64.mul (Py64.truediv (spec_downloaded d) t) Py64.f100) /\
     (spec_total d = None -> pct = S754_zero false) /\
     is_one_decimal pct ptxt /\
     (forall v, known (speed d) = Some v ->
                is_one_decimal (Py64.truediv v 1024) stxt)) /\
  (tag = "finished"%string -> _hook false d = HEmit Py64.f100 "Procesando…") /\
  (tag <> "downloading"%string -> tag <> "finished"%string -> _hook false d = HPass).
Proof.
  intro Hs. unfold _hook, status_is. rewrite Hs. split; [|split].
  - intros ->. cbn [String.eqb Ascii.eqb Bool.eqb].
    exists (hook_pct d), (fmt_1f (hook_pct d)),
           (match known (speed d) with
            | Some v => fmt_1f (Py64.truediv v 1024)
            | None => ""%string
            end).
    split; [|split; [|split; [|split]]].
    + rewrite hook_txt_parts. destruct (known (speed d)); reflexivity.
    + apply hook_pct_known.
    + apply hook_pct_unknown.
    + apply fmt_1f_correct.
    + intros v ->. apply fmt_1f_correct.
  - intros ->. reflexivity.
  - intros H1 H2. apply String.eqb_neq in H1, H2. rewrite H1, H2. reflexivity.
Qed.

Lemma hook_progress_normalization_witness :
  _hook false (mkPayload (Some "downloading") None (Some 2048%Q) (Some 512%Q)
                         (Some 3072%Q) (Some 7%Z))
  = HEmit (S754_finite false 7036874417766400 (-48)) "25.0% • 3.0 KiB/s • ETA 7s".
Proof.
  destruct (hook_progress_normalization
              (mkPayload (Some "downloading") None (Some 2048%Q) (Some 512%Q)
                         (Some 3072%Q) (Some 7%Z))
              "downloading" eq_refl) as [H _].
  destruct (H eq_refl) as (pct & ptxt & stxt & E & Hp & _ & Hptxt & Hstxt).
  specialize (Hp 2048%Q eq_refl). specialize (Hstxt 3072%Q eq_refl).
  assert (Hpct : pct = S754_finite false 7036874417766400 (-48))
    by (rewrite Hp; reflexivity).
  subst pct.
  rewrite (is_one_decimal_unique _ _ _ Hptxt
             (fmt_1f_correct (S754_finite false 7036874417766400 (-48)))) in E.
  rewrite (is_one_decimal_unique _ _ _ Hstxt
             (fmt_1f_correct (Py64.truediv 3072 1024))) in E.
  exact E.
Defined.

(** C6 (amended). The percent emitted by the hook is a finite number
    between 0 and 100 whenever the downloaded byte count is not negative
    and does not exceed the known total; it is exactly [0.0] when no
    total is known, and [100.0] for a [finished] payload. *)
Theorem hook_percent_in_range (d : payload) (pct : spec_float) (txt : string) :
  _hook false d = HEmit pct txt ->
  within_total d ->
  Py64.is_finite pct = true /\
  (0 <= Py64.value pct <= 100)%Q /\
  (status d = Some "downloading"%string -> spec_total d = None ->
   pct = S754_zero false) /\
  (status d = Some "finished"%string -> pct = Py64.f100).
Proof.
  unfold _hook, status_is. intros H Hw.
  destruct (status d) as [s|]; [|discriminate H].
  destruct (String.eqb s "downloading") eqn:E1.
  - assert (Hp : pct = hook_pct d) by congruence. subst pct.
    apply String.eqb_eq in E1. subst s.
    assert (Hr : Py64.is_finite (hook_pct d) = true /\
                 (0 <= Py64.value (hook_pct d) <= 100)%Q).
    { destruct (hook_pct_range d Hw) as [[sg ->]|Hb].
      - split; [reflexivity|]. split; discriminate.
      - destruct (below_100_value _ Hb) as (Hf & _ & Hv). split; assumption. }
    destruct Hr as [Hf Hv].
    split; [exact Hf|]. split; [exact Hv|]. split.
    + intros _. apply hook_pct_unknown.
    + discriminate.
  - destruct (String.eqb s "finished") eqn:E2; [|discriminate H].
    assert (Hp : pct = Py64.f100) by congruence. subst pct.
    split; [reflexivity|]. split; [split; discriminate|]. split.
    + intros [= ->]. discriminate E1.
    + intros _. reflexivity.
Qed.

Lemma hook_percent_in_range_witness :
  Py64.is_finite (S754_finite false 8092405580431359 (-48)) = true /\
  (0 <= Py64.value (S754_finite false 8092405580431359 (-48)) <= 100)%Q.
Proof.
  destruct (hook_percent_in_range
              (mkPayload (Some "downloading") (Some 80%Q) None (Some 23%Q) None None)
              (S754_finite false 8092405580431359 (-48)) "28.7%" eq_refl)
    as (Hf & Hv & _).
  - split.
    + discriminate.
    + intros t [= <-]. discriminate.
  - split; [exact Hf | exact Hv].
Defined.

(** C6, as stated, fails: the client's estimate of the total can be
    smaller than the bytes already downloaded, and the hook does not
    clamp. *)
Lemma hook_percent_above_100 :
  exists pct txt,
    _hook false (mkPayload (Some "downloading") None (Some 100%Q) (Some 200%Q) None None)
    = HEmit pct txt /\
    (100 < Py64.value pct)%Q.
Proof.
  exists (S754_finite false 7036874417766400 (-45)), "200.0%"%string.
  split; reflexivity.
Qed.

(** ** The watch-URL predicate *)

Section WatchUrl.

Lemma prefix_app (a b : string) : prefix a (a ++ b) = true.
Proof.
  induction a as [|c a IH]; simpl; [destruct b; reflexivity|].
  destruct (ascii_dec c c) as [_|Hn]; [exact IH | exfalso; apply Hn; reflexivity].
Qed.

Lemma contains_prefix (needle s : string) :
  prefix needle s = true -> PyStr.contains needle s = true.
Proof.
  intro H. destruct s as [|c s].
  - destruct needle; [reflexivity | discriminate H].
  - change (prefix needle (String c s) || PyStr.contains needle s = true).
    rewrite H. reflexivity.
Qed.

Lemma contains_app (needle pre post : string) :
  PyStr.contains needle (pre ++ needle ++ post) = true.
Proof.
  induction pre as [|c pre IH].
  - apply contains_prefix. exact (prefix_app needle post).
  - change (PyStr.contains needle (String c (pre ++ needle ++ post)) = true).
    change (prefix needle (String c (pre ++ needle ++ post))
            || PyStr.contains needle (pre ++ needle ++ post) = true).
    rewrite IH. apply orb_true_r.
Qed.

Lemma has_char_head (c : ascii) (s : string) : PyStr.has_char c (String c s) = true.
Proof. simpl. rewrite Ascii.eqb_refl. reflexivity. Qed.

(** A prefix brings all its characters. *)
Lemma prefix_has_char (c : ascii) (needle : string) :
  forall s, prefix needle s = true ->
            PyStr.has_char c needle = true -> PyStr.has_char c s = true.
Proof.
  induction needle as [|x n IH]; intros s Hp Hc; [discriminate Hc|].
  destruct s as [|y s]; [discriminate Hp|]. simpl in Hp.
  destruct (ascii_dec x y) as [<-|]; [|discriminate Hp].
  simpl in *. destruct (Ascii.eqb x c); [reflexivity|]. simpl in *.
  apply IH; assumption.
Qed.

Lemma contains_needs_char (c : ascii) (needle s : string) :
  PyStr.has_char c needle = true ->
  PyStr.has_char c s = false ->
  PyStr.contains needle s = false.
Proof.
  intros Hn. induction s as [|y s IH]; intro Hs.
  - destruct needle; [discriminate Hn | reflexivity].
  - change (prefix needle (String y s) || PyStr.contains needle s = false).
    apply orb_false_iff. split.
    + destruct (prefix needle (String y s)) eqn:E; [|reflexivity].
      rewrite (prefix_has_char c needle _ E Hn) in Hs. discriminate Hs.
    + apply IH. simpl in Hs. apply orb_false_iff in Hs. apply Hs.
Qed.

Lemma search_url_rejected (query : string) :
  PyStr.has_char "/" query = false ->
  is_youtube_watch (search_url query) = false.
Proof.
  intro Hq. unfold is_youtube_watch, search_url.
  assert (H1 : PyStr.contains "youtube.com/watch" query = false)
    by (apply (contains_needs_char "/"); [reflexivity | exact Hq]).
  assert (H2 : PyStr.contains "youtu.be/" query = false)
    by (apply (contains_needs_char "/"); [reflexivity | exact Hq]).
  simpl. rewrite H1, H2. reflexivity.
Qed.

End WatchUrl.

(** C9. The predicate accepts every URL that has the watch endpoint
    ([youtube.com/watch]) or the short-link host ([youtu.be/]) in it, and
    rejects the search-results URL that the search box builds, whatever
    the (percent-encoded, hence slash-free) query. *)
Theorem is_youtube_watch_shapes (pre post query : string) :
  PyStr.has_char "/" query = false ->
  is_youtube_watch (pre ++ "youtube.com/watch" ++ post) = true /\
  is_youtube_watch (pre ++ "youtu.be/" ++ post) = true /\
  is_youtube_watch (search_url query) = false.
Proof.
  intro Hq. unfold is_youtube_watch at 1 2. repeat split.
  - rewrite contains_app. reflexivity.
  - rewrite contains_app. apply orb_true_r.
  - apply search_url_rejected, Hq.
Qed.

Lemma is_youtube_watch_shapes_witness :
  is_youtube_watch "https://www.youtube.com/watch?v=abc" = true /\
  is_youtube_watch "https://youtu.be/abc" = true /\
  is_youtube_watch "https://www.youtube.com/results?search_query=daft%20punk" = false.
Proof.
  destruct (is_youtube_watch_shapes "https://www." "?v=abc" "daft%20punk" eq_refl)
    as (H1 & _ & H3).
  destruct (is_youtube_watch_shapes "https://" "abc" "daft%20punk" eq_refl)
    as (_ & H2 & _).
  split; [exact H1 | split; [exact H2 | exact H3]].
Defined.

(** ** Requesting a download *)

Lemma watch_url_not_empty (u : string) :
  is_youtube_watch u = true -> String.eqb u "" = false.
Proof. destruct u; [discriminate | reflexivity]. Qed.

(** C10 (amended). With no selection adopted, a download request falls
    back to the URL of the page on screen: when that URL passes the
    predicate and no download is running, the worker is started on it;
    when it passes and a download is running, the request is refused as
    busy; the request is refused for lack of a selection exactly when the
    page URL fails the predicate. *)
Theorem download_falls_back_to_page_url (self : Main) (k : string) :
  sel_url (sel self) = ""%string ->
  (is_youtube_watch (web_url self) = true ->
   dlt self <> Some true ->
   on_download self k = Started (Downloader_init (web_url self) (download_dir self) k)) /\
  (is_youtube_watch (web_url self) = true ->
   dlt self = Some true ->
   on_download self k = Busy) /\
  (on_download self k = AskSelect <-> is_youtube_watch (web_url self) = false).
Proof.
  intro Hsel. unfold on_download, _ensure_selected. rewrite Hsel. simpl String.eqb. cbv iota.
  destruct (is_youtube_watch (web_url self)) eqn:Hw; simpl negb; cbv iota.
  - rewrite (watch_url_not_empty _ Hw). repeat split.
    + intros _ Hrun. destruct (dlt self) as [[|]|]; try reflexivity.
      exfalso. apply Hrun. reflexivity.
    + intros _ ->. reflexivity.
    + destruct (dlt self) as [[|]|]; discriminate.
    + discriminate.
  - repeat split; try discriminate.
Qed.

Lemma download_falls_back_to_page_url_witness :
  on_download Requests.idle_watch_page "audio" =
  Started (Downloader_init "https://www.youtube.com/watch?v=abc" "/music" "audio").
Proof.
  apply (download_falls_back_to_page_url Requests.idle_watch_page "audio" eq_refl).
  - reflexivity.
  - discriminate.
Defined.

(** C10, as stated, fails: the page URL passes the predicate, yet no
    worker is started and the request is refused, because a download is
    already running. *)
Lemma download_refused_while_running :
  sel_url (sel Requests.busy_watch_page) = ""%string /\
  is_youtube_watch (web_url Requests.busy_watch_page) = true /\
  on_download Requests.busy_watch_page "audio" = Busy.
Proof. repeat split. Qed.

(** ** Error text sanitization *)

Section Sanitize.

Lemma ansi_sub_cons (c : ascii) (r : string) :
  ansi_sub (String c r) =
  match match_ansi (String c r) with
  | Some rest => ansi_sub rest
  | None => String c (ansi_sub r)
  end.
Proof.
  simp ansi_sub.
  destruct (Logic.inspect (match_ansi (String c r))) as [[rest|] H];
    simp ansi_sub; rewrite H; reflexivity.
Qed.

Lemma ansi_sub_empty : ansi_sub "" = ""%string.
Proof. simp ansi_sub. reflexivity. Qed.

Lemma skip_params_decomp (r : string) :
  exists ps, all_params ps = true /\ r = (ps ++ skip_params r)%string.
Proof.
  induction r as [|c r (ps & Hps & E)]; [exists ""%string; split; reflexivity|].
  simpl. destruct (is_param c) eqn:Hc.
  - exists (String c ps). simpl. rewrite Hc, Hps. split; [reflexivity|].
    rewrite <- E. reflexivity.
  - exists ""%string. split; reflexivity.
Qed.

Lemma skip_params_app_params (ps t : string) :
  all_params ps = true -> skip_params (ps ++ t) = skip_params t.
Proof.
  induction ps as [|c ps IH]; simpl; [reflexivity|].
  intro H. apply andb_true_iff in H. destruct H as [Hc Hps].
  rewrite Hc. apply IH, Hps.
Qed.

(** Appending leaves the end of a parameter run where it was, as soon
    as the run stops before the end of the string. *)
Lemma skip_params_app_stop (r t : string) (c : ascii) (x : string) :
  skip_params r = String c x -> skip_params (r ++ t) = String c (x ++ t).
Proof.
  induction r as [|y r IH]; simpl; [discriminate|].
  destruct (is_param y); [exact IH|]. intros [= -> ->]. reflexivity.
Qed.

Lemma skip_params_app_esc (r t : string) :
  skip_params r = ""%string -> skip_params (r ++ String ESC t) = String ESC t.
Proof.
  induction r as [|y r IH]; simpl; [reflexivity|].
  destruct (is_param y); [exact IH | discriminate].
Qed.

Lemma match_ansi_color_seq (ps b : string) :
  all_params ps = true -> match_ansi (color_seq ps ++ b) = Some b.
Proof.
  intro H. unfold color_seq. simpl.
  rewrite append_assoc, (skip_params_app_params ps _ H). reflexivity.
Qed.

Lemma match_ansi_inv (s rest : string) :
  match_ansi s = Some rest ->
  exists ps, all_params ps = true /\ s = (color_seq ps ++ rest)%string.
Proof.
  destruct s as [|c1 [|c2 r]]; simpl; try discriminate.
  destruct (Ascii.eqb c1 ESC) eqn:E1; [|discriminate].
  destruct (Ascii.eqb c2 "[") eqn:E2; [|discriminate]. simpl.
  apply Ascii.eqb_eq in E1, E2. subst c1 c2.
  destruct (skip_params_decomp r) as (ps & Hps & E).
  destruct (skip_params r) as [|c3 x]; [discriminate|].
  destruct (Ascii.eqb c3 "m") eqn:E3; [|discriminate].
  apply Ascii.eqb_eq in E3. subst c3. intros [= ->].
  exists ps. split; [exact Hps|].
  unfold color_seq. simpl. rewrite append_assoc. rewrite E at 1. reflexivity.
Qed.

Lemma match_ansi_app (a t rest : string) :
  match_ansi a = Some rest -> match_ansi (a ++ t) = Some (rest ++ t)%string.
Proof.
  destruct a as [|c1 [|c2 r]]; simpl; try discriminate.
  destruct (Ascii.eqb c1 ESC && Ascii.eqb c2 "["); [|discriminate].
  destruct (skip_params r) as [|c3 x] eqn:E; [discriminate|].
  rewrite (skip_params_app_stop r t c3 x E).
  destruct (Ascii.eqb c3 "m"); [|discriminate]. intros [= ->]. reflexivity.
Qed.

(** An attempt that fails inside [a] still fails when an ESC follows. *)
Lemma match_ansi_none_app (c : ascii) (r t : string) :
  match_ansi (String c r) = None ->
  match_ansi (String c r ++ String ESC t) = None.
Proof.
  destruct r as [|c2 r]; simpl.
  - intros _. rewrite andb_false_r. reflexivity.
  - destruct (Ascii.eqb c ESC && Ascii.eqb c2 "["); [|reflexivity].
    destruct (skip_params r) as [|c3 x] eqn:E.
    + rewrite (skip_params_app_esc r t E). reflexivity.
    + rewrite (skip_params_app_stop r _ c3 x E).
      destruct (Ascii.eqb c3 "m"); [discriminate | reflexivity].
Qed.

Lemma ansi_sub_app_esc (t : string) (n : nat) :
  forall a, String.length a <= n ->
  ansi_sub (a ++ String ESC t) = (ansi_sub a ++ ansi_sub (String ESC t))%string.
Proof.
  induction n as [|n IH]; intros a Hlen.
  - destruct a; [|simpl in Hlen; lia]. rewrite ansi_sub_empty. reflexivity.
  - destruct a as [|c r]; [rewrite ansi_sub_empty; reflexivity|].
    rewrite (ansi_sub_cons c r).
    change (String c r ++ String ESC t)%string with (String c (r ++ String ESC t)).
    rewrite ansi_sub_cons.
    change (String c (r ++ String ESC t)) with (String c r ++ String ESC t)%string.
    destruct (match_ansi (String c r)) as [rest|] eqn:E.
    + rewrite (match_ansi_app _ _ _ E). apply IH.
      apply match_ansi_length in E. simpl in *. lia.
    + rewrite (match_ansi_none_app c r t E). simpl. rewrite IH; [reflexivity|].
      simpl in Hlen. lia.
Qed.

(** Every colour sequence of the text is deleted, and the text around
    it is treated on its own. *)
Lemma ansi_sub_color_seq (a ps b : string) :
  all_params ps = true ->
  ansi_sub (a ++ color_seq ps ++ b) = (ansi_sub a ++ ansi_sub b)%string.
Proof.
  intro H. unfold color_seq at 1.
  change (String ESC (String "[" (ps ++ "m")) ++ b)%string
    with (String ESC (String "[" (ps ++ "m") ++ b)).
  rewrite (ansi_sub_app_esc _ (String.length a) a (le_n _)). f_equal.
  rewrite ansi_sub_cons.
  change (String ESC (String "[" (ps ++ "m") ++ b)) with (color_seq ps ++ b)%string.
  rewrite (match_ansi_color_seq ps b H). reflexivity.
Qed.

Lemma has_color_seq_cons (c : ascii) (r : string) :
  has_color_seq (String c r) =
  match match_ansi (String c r) with Some _ => true | None => has_color_seq r end.
Proof. reflexivity. Qed.

Lemma ansi_sub_clean (s : string) : has_color_seq s = false -> ansi_sub s = s.
Proof.
  induction s as [|c r IH]; [intros _; apply ansi_sub_empty|].
  rewrite has_color_seq_cons, ansi_sub_cons.
  destruct (match_ansi (String c r)); [discriminate|].
  intro H. rewrite (IH H). reflexivity.
Qed.

(** [has_color_seq] decides the occurrence of a colour sequence. *)
Lemma has_color_seq_spec (s : string) :
  has_color_seq s = true <->
  exists a ps b, all_params ps = true /\ s = (a ++ color_seq ps ++ b)%string.
Proof.
  split.
  - induction s as [|c r IH]; [discriminate|].
    rewrite has_color_seq_cons.
    destruct (match_ansi (String c r)) as [rest|] eqn:E.
    + intros _. destruct (match_ansi_inv _ _ E) as (ps & Hps & Es).
      exists ""%string, ps, rest. split; [exact Hps | exact Es].
    + intro H. destruct (IH H) as (a & ps & b & Hps & Er).
      exists (String c a), ps, b. split; [exact Hps|]. rewrite Er. reflexivity.
  - intros (a & ps & b & Hps & ->). induction a as [|c a IH].
    + change (""%string ++ color_seq ps ++ b)%string with (color_seq ps ++ b)%string.
      unfold color_seq at 1.
      change (String ESC (String "[" (ps ++ "m")) ++ b)%string
        with (String ESC (String "[" (ps ++ "m") ++ b)).
      rewrite has_color_seq_cons.
      change (String ESC (String "[" (ps ++ "m") ++ b)) with (color_seq ps ++ b)%string.
      rewrite (match_ansi_color_seq ps b Hps). reflexivity.
    + change (String c a ++ color_seq ps ++ b)%string
        with (String c (a ++ color_seq ps ++ b)).
      rewrite has_color_seq_cons.
      destruct (match_ansi _); [reflexivity | exact IH].
Qed.

End Sanitize.

(** C8. [clean_err] deletes every colour sequence of its argument: a
    text with a sequence in it is cleaned as the text before it followed
    by the text after it.  On a text in which no colour sequence occurs it
    is the identity.  It returns a string for every argument, also for one
    that is not a string, on which the substitution raises.  The text
    ESC[31mError: 403ESC[0m is cleaned to [Error: 403]. *)
Theorem clean_err_strips_color_sequences (a ps b s repr : string) :
  all_params ps = true ->
  (forall x qs y, all_params qs = true -> s <> (x ++ color_seq qs ++ y)%string) ->
  clean_err (PStr (a ++ color_seq ps ++ b)) = (clean_err (PStr a) ++ clean_err (PStr b))%string /\
  clean_err (PStr s) = s /\
  (re_sub (PObj repr) = None /\ clean_err (PObj repr) = repr) /\
  clean_err (PStr (String ESC "[31mError: 403" ++ String ESC "[0m")) = "Error: 403"%string.
Proof.
  intros Hps Hs. unfold clean_err. simpl re_sub. cbv iota. repeat split.
  - apply ansi_sub_color_seq, Hps.
  - apply ansi_sub_clean. destruct (has_color_seq s) eqn:E; [|reflexivity].
    apply has_color_seq_spec in E. destruct E as (x & qs & y & Hqs & E).
    exfalso. exact (Hs x qs y Hqs E).
Qed.

Lemma clean_err_strips_color_sequences_witness :
  clean_err (PStr ("HTTP " ++ color_seq "1;31" ++ "Error 403")) = "HTTP Error 403"%string /\
  clean_err (PStr "Error: 403") = "Error: 403"%string.
Proof.
  destruct (clean_err_strips_color_sequences
              "HTTP " "1;31" "Error 403" "Error: 403" "None" eq_refl)
    as (H1 & H2 & _).
  - intros x qs y Hqs E.
    assert (H : has_color_seq "Error: 403" = true)
      by (apply has_color_seq_spec; exists x, qs, y; split; assumption).
    discriminate H.
  - split; [rewrite H1; reflexivity | exact H2].
Defined.

(** * Further properties of the worker *)

Section VideoOutcome.

Variable w : world.
Variable template : string.
Variable flag0 : bool.
Variable cands : list string.

(** The [k]-th call ends with an error that the loop retries. *)
Let again (k : nat) : Prop :=
  exists ex, ce_out (attempt w template flag0 cands k) = Raises ex /\ retryable ex = true.

Lemma again_dec (k : nat) : again k \/ ~ again k.
Proof.
  unfold again. destruct (ce_out (attempt w template flag0 cands k)) as [ex|f].
  - destruct (retryable ex) eqn:E.
    + left. exists ex. split; [reflexivity | exact E].
    + right. intros (ex' & [= <-] & H). rewrite H in E. discriminate.
  - right. intros (ex' & H & _). discriminate H.
Qed.

(** Either the first [n] calls are all retried, or there is a first one
    that is not. *)
Lemma first_not_retried (n : nat) :
  (forall i, i < n -> again i) \/
  (exists k, k < n /\ (forall i, i < k -> again i) /\ ~ again k).
Proof.
  induction n as [|n [Hall | (k & Hk & Hbefore & Hnot)]].
  - left. intros i Hi. lia.
  - destruct (again_dec n) as [Hn | Hn].
    + left. intros i Hi. destruct (Nat.eq_dec i n) as [->|]; [exact Hn | apply Hall; lia].
    + right. exists n. repeat split; [lia | exact Hall | exact Hn].
  - right. exists k. repeat split; [lia | exact Hbefore | exact Hnot].
Qed.

(** Every candidate was retried: the loop ends with the last error. *)
Lemma video_loop_exhausted (ex : string) :
  cands <> [] ->
  (forall i, i < List.length cands -> again i) ->
  ce_out (attempt w template flag0 cands (List.length cands - 1)) = Raises ex ->
  calls (video_loop w template flag0 0 cands None) = map (video_opts template) cands /\
  ends_with (video_loop w template flag0 0 cands None) (failed (clean_err (PStr ex))).
Proof.
  intros Hne Hall Hout.
  assert (HL : 0 < List.length cands) by (destruct cands; [congruence | simpl; lia]).
  set (L := List.length cands - 1).
  destruct (video_loop_retries w template flag0 cands L 0 None ltac:(lia))
    as (pre & last' & E & Hc & Hp).
  { intros i Hi. apply Hall. lia. }
  simpl in E, Hc. rewrite E.
  rewrite (video_loop_step w template flag0 cands L last' ltac:(lia)).
  destruct (Hall L ltac:(lia)) as (ex' & Hout' & Hre).
  fold L in Hout. rewrite Hout in Hout'. injection Hout' as <-.
  rewrite Hout, Hre.
  replace (S L) with (List.length cands) by lia. rewrite skipn_all. simpl video_loop.
  split.
  - rewrite !calls_app, Hc. cbn [calls]. unfold attempt. rewrite call_client_calls.
    assert (Hsplit : cands = firstn L cands ++ [nth L cands ""%string]).
    { rewrite <- (firstn_skipn L cands) at 1.
      rewrite (skipn_cons_nth cands L ltac:(lia)).
      replace (S L) with (List.length cands) by lia. rewrite skipn_all. reflexivity. }
    set (F := firstn L cands) in *. set (x := nth L cands ""%string) in *.
    clearbody F x. rewrite Hsplit, map_app. reflexivity.
  - apply ends_with_prepend; [exact Hp|].
    apply ends_with_prepend; [|apply ends_with_single].
    apply only_progress_cons_call, call_client_only_progress.
Qed.

(** The loop is decided by its first call that is not retried, or by the
    last call when all are. *)
Lemma video_loop_decided :
  cands <> [] ->
  exists k,
    k < List.length cands /\
    (forall i, i < k -> again i) /\
    (again k -> k = List.length cands - 1) /\
    calls (video_loop w template flag0 0 cands None) =
      map (video_opts template) (firstn (S k) cands) /\
    ends_with (video_loop w template flag0 0 cands None)
      match ce_out (attempt w template flag0 cands k) with
      | Returns f => done (video_final w f)
      | Raises ex => failed (clean_err (PStr ex))
      end.
Proof.
  intro Hne.
  assert (HL : 0 < List.length cands) by (destruct cands; [congruence | simpl; lia]).
  assert (Hstop : forall k, k < List.length cands -> (forall i, i < k -> again i) ->
                            ~ again k ->
            calls (video_loop w template flag0 0 cands None) =
              map (video_opts template) (firstn (S k) cands) /\
            ends_with (video_loop w template flag0 0 cands None)
              match ce_out (attempt w template flag0 cands k) with
              | Returns f => done (video_final w f)
              | Raises ex => failed (clean_err (PStr ex))
              end).
  { intros k Hk Hbefore Hnot. apply video_loop_leaves; [exact Hk | exact Hbefore |].
    destruct (ce_out (attempt w template flag0 cands k)) as [ex|f] eqn:E; [|reflexivity].
    split; [|reflexivity]. destruct (retryable ex) eqn:R; [|reflexivity].
    exfalso. apply Hnot. exists ex. split; [exact E | exact R]. }
  destruct (first_not_retried (List.length cands - 1)) as [Hall | (k & Hk & Hbefore & Hnot)].
  - exists (List.length cands - 1).
    destruct (again_dec (List.length cands - 1)) as [Hlast | Hlast].
    + destruct Hlast as (ex & Hout & Hre).
      destruct (video_loop_exhausted ex Hne) as [Hc He]; [|exact Hout|].
      { intros i Hi. destruct (Nat.eq_dec i (List.length cands - 1)) as [->|].
        - exists ex. split; assumption.
        - apply Hall. lia. }
      rewrite Hout. replace (S (List.length cands - 1)) with (List.length cands) by lia.
      rewrite firstn_all. repeat split; try assumption. lia.
    + destruct (Hstop (List.length cands - 1) ltac:(lia) Hall Hlast) as [Hc He].
      repeat split; try assumption. lia.
  - exists k. destruct (Hstop k ltac:(lia) Hbefore Hnot) as [Hc He].
    repeat split; try assumption; try lia. intro H. contradiction.
Qed.

Lemma video_loop_calls_prefix (fmts : list string) :
  forall flag n last,
  exists m, m <= List.length fmts /\ (fmts <> [] -> 1 <= m) /\
            calls (video_loop w template flag n fmts last) =
              firstn m (map (video_opts template) fmts).
Proof.
  induction fmts as [|fmt rest IH]; intros flag n last.
  - exists 0. repeat split; [lia | congruence].
  - simpl video_loop. set (c := call_client w n flag (video_opts template fmt)).
    assert (Hone : forall t, exists m, m <= List.length (fmt :: rest) /\
              (fmt :: rest <> [] -> 1 <= m) /\
              calls (Call (video_opts template fmt) :: ce_trace c ++ [Emit t]) =
                firstn m (map (video_opts template) (fmt :: rest))).
    { intro t. exists 1. repeat split; [simpl; lia | lia |].
      simpl. rewrite calls_app. unfold c. rewrite call_client_calls. reflexivity. }
    destruct (ce_out c) as [ex|f]; [|apply Hone].
    destruct (retryable ex); [|apply Hone].
    destruct (IH (ce_stop c) (S n) (Some ex)) as (m & Hm & _ & E).
    exists (S m). repeat split; [simpl; lia | lia |].
    simpl. rewrite calls_app. unfold c at 1. rewrite call_client_calls. simpl.
    rewrite E. reflexivity.
Qed.

End VideoOutcome.

Lemma ends_with_unique (tr : list obs) (t t' : signal) :
  ends_with tr t -> ends_with tr t' -> t = t'.
Proof.
  intros (b & E & _) (b' & E' & _). rewrite E in E'.
  apply app_inj_tail in E'. destruct E' as [_ [= H]]. exact H.
Qed.

Lemma run_audio_shape (w : world) (self : Downloader) :
  calls (run_audio w self) = [audio_opts (template_of self)] /\
  ends_with (run_audio w self)
    match ce_out (call_client w 0 (_stop self) (audio_opts (template_of self))) with
    | Returns f =>
        done (first_existing w (audio_cands (fst (splitext w f))) f)
    | Raises ex => failed (clean_err (PStr ex))
    end.
Proof.
  unfold run_audio. set (o := audio_opts (template_of self)).
  set (c := call_client w 0 (_stop self) o).
  assert (Hc : only_progress (Call o :: ce_trace c))
    by apply only_progress_cons_call, call_client_only_progress.
  change (Call o :: ce_trace c ++ ?x) with ((Call o :: ce_trace c) ++ x).
  split.
  - rewrite calls_app. simpl. unfold c. rewrite call_client_calls.
    destruct (ce_out _); reflexivity.
  - destruct (ce_out c); (apply ends_with_prepend; [exact Hc | apply ends_with_single]).
Qed.

Lemma first_existing_sound (w : world) (l : list string) (f : string) :
  path_exists w (first_existing w l f) = true \/ first_existing w l f = f.
Proof.
  induction l as [|x l IH]; simpl; [right; reflexivity|].
  destruct (path_exists w x) eqn:E; [left; exact E | exact IH].
Qed.

(** With the flag already set, the first hook invocation of a call ends
    it, before any signal. *)
Lemma drive_preset (st : list client_step) (fin : outcome) (d : payload) :
  In (Callback d) st ->
  signals (ce_trace (drive true st fin)) = [] /\
  calls (ce_trace (drive true st fin)) = [] /\
  ce_out (drive true st fin) = Raises cancel_msg.
Proof.
  induction st as [|s r IH]; [intros []|].
  intros [->|Hin]; [repeat split|].
  destruct s as [d'|]; [repeat split|]. simpl. apply IH, Hin.
Qed.

(** X1. Whatever the client, the disk and the main thread do, the client
    calls of a job are an initial part of its planned calls, in the
    planned order: at most one for an audio job, at most four for a video
    job.  No call is made exactly when the output directory cannot be
    created. *)
Theorem run_calls_follow_plan (w : world) (self : Downloader) :
  exists m,
    m <= List.length (planned_calls self) /\
    List.length (planned_calls self) <= 4 /\
    calls (run w self) = firstn m (planned_calls self) /\
    (m = 0 <-> mkdir_raises w <> None).
Proof.
  unfold run, planned_calls. destruct (mkdir_raises w) as [ex|].
  - exists 0. split; [lia|]. split; [destruct (String.eqb _ _); simpl; lia|].
    split; [reflexivity|]. split; [intros _; discriminate | reflexivity].
  - destruct (String.eqb (kind self) "audio").
    + exists 1. split; [simpl; lia|]. split; [simpl; lia|].
      split; [apply run_audio_shape|].
      split; [discriminate | intro H; exfalso; apply H; reflexivity].
    + destruct (video_loop_calls_prefix w (template_of self) format_candidates
                  (_stop self) 0 None) as (m & Hm & H1 & E).
      exists m. rewrite length_map. split; [exact Hm|]. split; [simpl; lia|].
      split; [exact E|]. split.
      * intros ->. specialize (H1 ltac:(discriminate)). lia.
      * intro H. exfalso. apply H. reflexivity.
Qed.

(** X2. A video job whose output directory exists is decided by its first
    client call that is not retried, or by the fourth call when the first
    three are retried: the calls are the candidates up to that one, and
    the job ends with [done] if that call succeeded and with [failed]
    carrying the sanitized text of that call's error otherwise (also when
    all four candidates are used up). *)
Theorem video_outcome_decided_by_last_call (w : world) (self : Downloader) :
  mkdir_raises w = None ->
  String.eqb (kind self) "audio" = false ->
  exists k,
    k < 4 /\
    (forall i, i < k -> retried w self i) /\
    (retried w self k -> k = 3) /\
    calls (run w self) = firstn (S k) (planned_calls self) /\
    ends_with (run w self)
      match ce_out (attempt w (template_of self) (_stop self) format_candidates k) with
      | Returns f => done (video_final w f)
      | Raises ex => failed (clean_err (PStr ex))
      end.
Proof.
  intros Hmk Hkind. unfold run, planned_calls. rewrite Hmk, Hkind.
  destruct (video_loop_decided w (template_of self) (_stop self) format_candidates
              ltac:(discriminate)) as (k & Hk & Hbefore & Hlast & Hc & He).
  exists k. rewrite firstn_map. repeat split; assumption.
Qed.

Lemma video_outcome_decided_by_last_call_witness :
  exists k,
    k < 4 /\
    calls (run Worlds.disk_full Worlds.video_job) =
      firstn (S k) (planned_calls Worlds.video_job).
Proof.
  destruct (video_outcome_decided_by_last_call Worlds.disk_full Worlds.video_job
              eq_refl eq_refl) as (k & Hk & _ & _ & Hc & _).
  exists k. split; [exact Hk | exact Hc].
Defined.

(** X3. An audio job whose output directory exists calls the client
    exactly once, whatever the call does: an error is never retried, not
    even a forbidden or format-unavailable one, and ends the job with
    [failed] carrying its sanitized text. *)
Theorem audio_error_is_never_retried (w : world) (self : Downloader) (ex : string) :
  mkdir_raises w = None ->
  kind self = "audio"%string ->
  ce_out (call_client w 0 (_stop self) (audio_opts (template_of self))) = Raises ex ->
  calls (run w self) = [audio_opts (template_of self)] /\
  ends_with (run w self) (failed (clean_err (PStr ex))).
Proof.
  intros Hmk Hkind Hout. unfold run. rewrite Hmk, Hkind. simpl String.eqb. cbv iota.
  destruct (run_audio_shape w self) as [Hc He]. rewrite Hout in He.
  split; assumption.
Qed.

Lemma audio_error_is_never_retried_witness :
  calls (run Worlds.third_time Worlds.audio_job) =
    [audio_opts "/music/%(title).200B [%(id)s].%(ext)s"] /\
  ends_with (run Worlds.third_time Worlds.audio_job)
    (failed "ERROR: unable to download video data: HTTP Error 403: Forbidden").
Proof.
  apply (audio_error_is_never_retried Worlds.third_time Worlds.audio_job
           "ERROR: unable to download video data: HTTP Error 403: Forbidden");
    reflexivity.
Defined.

(** X4. The path carried by [done] is never made up: it is a path that
    exists on disk, or the file name returned by the last client call
    that the job made. *)
Theorem done_path_exists_or_named (w : world) (self : Downloader) (p : string) :
  ends_with (run w self) (done p) ->
  path_exists w p = true \/
  exists k, List.length (calls (run w self)) = S k /\
            ce_out (job_call w self k) = Returns p.
Proof.
  unfold run, job_call. destruct (mkdir_raises w) as [ex|].
  - intro H. pose proof (ends_with_unique _ _ _ H (ends_with_single _)) as E.
    discriminate E.
  - destruct (String.eqb (kind self) "audio").
    + intro H. destruct (run_audio_shape w self) as [Hc He].
      pose proof (ends_with_unique _ _ _ H He) as E.
      destruct (ce_out _) as [ex|f] eqn:Hout; [discriminate E|].
      assert (Hp : p = first_existing w (audio_cands (fst (splitext w f))) f) by congruence.
      subst p.
      destruct (first_existing_sound w (audio_cands (fst (splitext w f))) f) as [Hd|Hf].
      * left. exact Hd.
      * right. rewrite Hf. exists 0. rewrite Hc. split; reflexivity.
    + intro H.
      destruct (video_loop_decided w (template_of self) (_stop self) format_candidates
                  ltac:(discriminate)) as (k & Hk & _ & _ & Hc & He).
      pose proof (ends_with_unique _ _ _ H He) as E.
      destruct (ce_out _) as [ex|f] eqn:Hout; [discriminate E|].
      assert (Hp : p = video_final w f) by congruence.
      subst p. unfold video_final.
      destruct (path_exists w (fst (splitext w f) ++ ".mp4")) eqn:Hd.
      * left. exact Hd.
      * right. exists k. split; [|exact Hout].
        rewrite Hc, length_map, length_firstn. lia.
Qed.

Lemma done_path_exists_or_named_witness :
  List.length (calls (run Worlds.empty_disk Worlds.video_job)) = 2 /\
  ce_out (job_call Worlds.empty_disk Worlds.video_job 1)
  = Returns "/music/Song [abc].webm".
Proof.
  destruct (done_path_exists_or_named Worlds.empty_disk Worlds.video_job
              "/music/Song [abc].webm") as [Hd|(k & Hl & Hk)].
  - exists (removelast (run Worlds.empty_disk Worlds.video_job)).
    split; [reflexivity|].
    unfold only_progress. simpl. repeat constructor.
  - discriminate Hd.
  - assert (Ek : k = 1) by (cbv in Hl; congruence).
    subst k. split; [exact Hl | exact Hk].
Defined.

(** X5. A job whose flag was set before [run] started and whose first
    client call invokes the hook at all fails with the cancellation
    message after that single call, without having emitted any progress. *)
Theorem preset_flag_fails_without_progress (w : world) (self : Downloader) (d : payload) :
  _stop self = true ->
  mkdir_raises w = None ->
  In (Callback d) (steps (first_call w self)) ->
  signals (run w self) = [failed cancel_msg] /\
  List.length (calls (run w self)) = 1.
Proof.
  intros Hflag Hmk Hin. unfold run, first_call, planned_calls in *. rewrite Hmk, Hflag.
  destruct (String.eqb (kind self) "audio").
  - unfold run_audio, call_client. rewrite Hflag. simpl hd in Hin.
    destruct (drive_preset _ (ending (client w 0 (audio_opts (template_of self)))) d Hin)
      as (Hs & Hc & Ho).
    rewrite Ho. simpl. rewrite signals_app, calls_app, Hs, Hc. split; reflexivity.
  - simpl hd in Hin. unfold format_candidates. simpl video_loop. unfold call_client.
    match type of Hin with
    | In _ (steps (client w 0 ?o)) =>
        destruct (drive_preset _ (ending (client w 0 o)) d Hin) as (Hs & Hc & Ho)
    end.
    rewrite Ho. simpl. rewrite signals_app, calls_app, Hs, Hc. split; reflexivity.
Qed.

Lemma preset_flag_fails_without_progress_witness :
  signals (run Worlds.only_m4a (stop Worlds.audio_job)) = [failed cancel_msg] /\
  List.length (calls (run Worlds.only_m4a (stop Worlds.audio_job))) = 1.
Proof.
  apply (preset_flag_fails_without_progress Worlds.only_m4a (stop Worlds.audio_job)
           Worlds.finished).
  - reflexivity.
  - reflexivity.
  - simpl. right. right. left. reflexivity.
Defined.

(** * Further properties of the progress display *)

Section Display.

Local Open Scope Z_scope.

(** [int] of a float between [+0] and [100.0]. *)
Lemma py_int_below (x : spec_float) :
  below 25 2 x -> exists v, py_int x = Some v /\ 0 <= v <= 100.
Proof.
  destruct x as [[|]| | |[|] m e]; cbn [below]; try contradiction.
  - intros _. exists 0. split; [reflexivity | lia].
  - intros [He Hm]. unfold bound_at in Hm. cbn [py_int].
    eexists. split; [reflexivity|].
    destruct e as [|k|k].
    + change (2 ^ (2 - 0)) with 4 in Hm. lia.
    + assert (Hk : Zpos k = 1 \/ Zpos k = 2) by lia.
      destruct Hk as [Hk|Hk]; injection Hk as ->; cbn in *; lia.
    + rewrite Pos2Z.inj_pow.
      replace (2 - Zneg k) with (2 + Zpos k) in Hm by lia.
      rewrite Z.pow_add_r in Hm by lia. change (2 ^ 2) with 4 in Hm.
      assert (Hp : 0 < 2 ^ Zpos k) by (apply Z.pow_pos_nonneg; lia).
      change (Zpos 2) with 2.
      revert Hm Hp. generalize (2 ^ Zpos k). intros c Hm Hp.
      split.
      * apply Z.div_pos; lia.
      * apply Z.div_le_upper_bound; lia.
Qed.

(** A positive number divided by itself is [1.0]. *)
Lemma truediv_same (a b : Q) :
  0 < Qnum a -> (a == b)%Q ->
  Py64.truediv a b = S754_finite false 4503599627370496 (-52).
Proof.
  intros Ha Hab. unfold Py64.truediv. unfold Qeq in Hab.
  replace (Zpos (Qden a) * Qnum b) with (Qnum a * Zpos (Qden b)) by lia.
  assert (Hn : 0 < Qnum a * Zpos (Qden b)) by lia.
  destruct (Qnum a * Zpos (Qden b)) as [|p|p]; try lia.
  cbn [Py64.of_Z SFdiv xorb]. unfold SFdiv_core_binary.
  replace (Zdigits2 (Zpos p) + 0 - (Zdigits2 (Zpos p) + 0)) with 0 by lia.
  change (Z.min (fexp 53 1024 0) (0 - 0)) with (-53).
  change (0 - 0 - -53) with 53. cbv beta iota zeta.
  assert (Hd : Z.div_eucl (Z.shiftl (Zpos p) 53) (Zpos p) = (2 ^ 53, 0)).
  { rewrite Z.shiftl_mul_pow2 by lia.
    rewrite (surjective_pairing (Z.div_eucl _ _)).
    change (fst (Z.div_eucl ?x ?y)) with (x / y).
    change (snd (Z.div_eucl ?x ?y)) with (x mod y).
    rewrite Z.mul_comm, Z.div_mul, Z.mod_mul by lia. reflexivity. }
  rewrite Hd. 
  assert (Hl : new_location (Zpos p) 0 = loc_Exact).
  { unfold new_location, new_location_even, new_location_odd.
    destruct (Z.even (Zpos p)); reflexivity. }
  rewrite Hl. reflexivity.
Qed.

End Display.

(** X7. For a payload whose byte count lies between zero and the known
    total, [on_progress] hands the progress bar an integer between 0 and
    100 (so [int(p)] does not raise), together with the hook's text
    unchanged; the integer is 100 when all the bytes of a known total
    are downloaded, and for a [finished] payload. *)
Theorem bar_value_in_range (d : payload) (p : spec_float) (x : string) :
  _hook false d = HEmit p x ->
  within_total d ->
  exists v : Z,
    on_progress p x = Some (v, x) /\
    (0 <= v <= 100)%Z /\
    (status d = Some "downloading"%string ->
     forall t, spec_total d = Some t -> (spec_downloaded d == t)%Q -> v = 100%Z) /\
    (status d = Some "finished"%string -> v = 100%Z).
Proof.
  unfold _hook, status_is, on_progress. intros H Hw.
  destruct (status d) as [s|]; [|discriminate H].
  destruct (String.eqb s "downloading") eqn:E1.
  - assert (Hp : p = hook_pct d) by congruence. subst p.
    apply String.eqb_eq in E1. subst s.
    assert (Hv : exists v, py_int (hook_pct d) = Some v /\ (0 <= v <= 100)%Z).
    { destruct (hook_pct_range d Hw) as [[sg ->]|Hb].
      - exists 0%Z. split; [reflexivity | lia].
      - apply py_int_below, Hb. }
    destruct Hv as (v & Ev & Hv). exists v. rewrite Ev.
    split; [reflexivity|]. split; [exact Hv|]. split; [|discriminate].
    intros _ t Et Hgt.
    rewrite (hook_pct_known d t Et) in Ev.
    pose proof (spec_total_nonzero d t Et) as Hnz.
    rewrite Qeq_bool_num in Hnz. apply Z.eqb_neq in Hnz.
    assert (Hg : (0 < Qnum (spec_downloaded d))%Z).
    { unfold within_total, spec_downloaded in *.
      destruct (downloaded_bytes d) as [g|].
      - destruct Hw as [H0 _]. unfold Qle in H0. cbn [Qnum Qden] in H0.
        unfold Qeq in Hgt. nia.
      - unfold Qeq in Hgt. cbn [Qnum Qden] in Hgt. lia. }
    rewrite (truediv_same _ _ Hg Hgt) in Ev.
    change (Some 100%Z = Some v) in Ev. congruence.
  - destruct (String.eqb s "finished") eqn:E2; [|discriminate H].
    assert (Hp : p = Py64.f100) by congruence. subst p.
    exists 100%Z. split; [reflexivity|]. split; [lia|]. split.
    + intros [= ->]. discriminate E1.
    + intros _. reflexivity.
Qed.

Lemma bar_value_in_range_witness :
  on_progress (S754_finite false 8162774324609023 (-48)) "29.0%"
  = Some (28%Z, "29.0%"%string) /\
  (0 <= 28 <= 100)%Z.
Proof.
  destruct (bar_value_in_range
              (mkPayload (Some "downloading") (Some 100%Q) None (Some 29%Q) None None)
              (S754_finite false 8162774324609023 (-48)) "29.0%" eq_refl)
    as (v & E & Hv & _).
  - split.
    + discriminate.
    + intros t [= <-]. discriminate.
  - assert (Ev : v = 28%Z) by (cbv in E; congruence).
    subst v. split; [exact E | exact Hv].
Defined.

(** X13. The bar can be full before the download is: with all but one
    of [2^54] bytes downloaded, the quotient rounds to [1.0], the hook
    emits [100.0] and the bar is set to 100. *)
Theorem bar_full_before_complete :
  (spec_downloaded Worlds.almost_done < 18014398509481984)%Q /\
  spec_total Worlds.almost_done = Some 18014398509481984%Q /\
  _hook false Worlds.almost_done = HEmit Py64.f100 "100.0%" /\
  on_progress Py64.f100 "100.0%" = Some (100%Z, "100.0%"%string).
Proof.
  split; [reflexivity|]. split; [reflexivity|]. split; reflexivity.
Qed.

(** * Further properties of the helpers *)

Section SanitizeMore.

Lemma length_append (a b : string) :
  String.length (a ++ b) = String.length a + String.length b.
Proof. induction a as [|c a IH]; simpl; [reflexivity | rewrite IH; reflexivity]. Qed.

Lemma Subseq_refl (s : string) : Subseq s s.
Proof. induction s; constructor; assumption. Qed.

Lemma Subseq_length (a b : string) : Subseq a b -> String.length a <= String.length b.
Proof. induction 1; simpl; lia. Qed.

Lemma Subseq_skip (pre a b : string) : Subseq a b -> Subseq a (pre ++ b).
Proof. intro H. induction pre; simpl; [exact H | constructor; assumption]. Qed.

Lemma ansi_sub_subseq (n : nat) :
  forall s, String.length s <= n -> Subseq (ansi_sub s) s.
Proof.
  induction n as [|n IH]; intros s Hlen.
  - destruct s; [|simpl in Hlen; lia]. rewrite ansi_sub_empty. constructor.
  - destruct s as [|c r]; [rewrite ansi_sub_empty; constructor|].
    rewrite ansi_sub_cons. destruct (match_ansi (String c r)) as [rest|] eqn:E.
    + pose proof (match_ansi_length _ _ E) as Hl.
      destruct (match_ansi_inv _ _ E) as (ps & _ & ->).
      apply Subseq_skip, IH. simpl in *. lia.
    + constructor. apply IH. simpl in Hlen. lia.
Qed.

Lemma ansi_sub_length (s : string) : String.length (ansi_sub s) <= String.length s.
Proof. apply Subseq_length, (ansi_sub_subseq (String.length s)), le_n. Qed.

Lemma color_seq_length (ps : string) : 3 <= String.length (color_seq ps).
Proof. unfold color_seq. simpl. rewrite length_append. simpl. lia. Qed.

Lemma params_no_esc (ps : string) : all_params ps = true -> PyStr.has_char ESC ps = false.
Proof.
  induction ps as [|c ps IH]; simpl; [reflexivity|].
  intro H. apply andb_true_iff in H. destruct H as [Hc Hps].
  rewrite (IH Hps), orb_false_r.
  destruct (Ascii.eqb c ESC) eqn:E; [|reflexivity].
  apply Ascii.eqb_eq in E. subst c. discriminate Hc.
Qed.

Lemma no_esc_app (a b : string) :
  PyStr.has_char ESC a = false -> PyStr.has_char ESC b = false ->
  PyStr.has_char ESC (a ++ b) = false.
Proof.
  induction a as [|c a IH]; simpl; [intros _ H; exact H|].
  intros H Hb. apply orb_false_iff in H. destruct H as [Hc Ha].
  rewrite Hc. simpl. apply IH; assumption.
Qed.

(** A sequence starts with ESC. *)
Lemma match_ansi_esc (c : ascii) (r rest : string) :
  match_ansi (String c r) = Some rest -> Ascii.eqb c ESC = true.
Proof.
  destruct r as [|c2 r]; simpl; [discriminate|].
  destruct (Ascii.eqb c ESC); [reflexivity | discriminate].
Qed.

Lemma no_esc_clean (s : string) : PyStr.has_char ESC s = false -> has_color_seq s = false.
Proof.
  induction s as [|c r IH]; [reflexivity|].
  simpl PyStr.has_char. intro H. apply orb_false_iff in H. destruct H as [Hc Hr].
  rewrite has_color_seq_cons.
  destruct (match_ansi (String c r)) as [rest|] eqn:E; [|apply IH, Hr].
  rewrite (match_ansi_esc c r rest E) in Hc. discriminate Hc.
Qed.

(** An opened sequence that is never closed is left alone. *)
Lemma open_seq_clean (ps : string) :
  all_params ps = true -> has_color_seq (String ESC (String "[" ps)) = false.
Proof.
  intro H. rewrite has_color_seq_cons.
  assert (Hskip : skip_params ps = ""%string).
  { rewrite <- (append_empty_r ps) at 1. apply (skip_params_app_params ps "" H). }
  assert (E : match_ansi (String ESC (String "[" ps)) = None).
  { simpl. rewrite Hskip. reflexivity. }
  rewrite E, has_color_seq_cons.
  replace (match_ansi (String "[" ps)) with (@None string)
    by (destruct ps; reflexivity).
  apply no_esc_clean, params_no_esc, H.
Qed.

End SanitizeMore.

(** X8. [clean_err] only deletes: its result is the argument with some
    characters removed, in the same order, so it is never longer; and it
    returns its argument unchanged exactly when no colour sequence occurs
    in it. *)
Theorem clean_err_only_deletes (s : string) :
  Subseq (clean_err (PStr s)) s /\
  String.length (clean_err (PStr s)) <= String.length s /\
  (clean_err (PStr s) = s <->
   ~ exists a ps b, all_params ps = true /\ s = (a ++ color_seq ps ++ b)%string).
Proof.
  unfold clean_err. simpl re_sub. cbv iota.
  split; [apply (ansi_sub_subseq (String.length s)), le_n|].
  split; [apply ansi_sub_length|]. split.
  - intros E (a & ps & b & Hps & ->).
    pose proof (ansi_sub_color_seq a ps b Hps) as H. rewrite E in H.
    apply (f_equal String.length) in H. rewrite !length_append in H.
    pose proof (ansi_sub_length a). pose proof (ansi_sub_length b).
    pose proof (color_seq_length ps). lia.
  - intro Hno. apply ansi_sub_clean.
    destruct (has_color_seq s) eqn:E; [|reflexivity].
    exfalso. apply Hno. apply has_color_seq_spec. exact E.
Qed.

(** X9. [clean_err] makes one pass over the text: when a colour sequence
    interrupts another one, deleting the inner sequence joins the two
    halves of the outer one, and the result is a colour sequence that a
    second call would delete. *)
Theorem clean_err_is_single_pass (ps1 ps2 ps3 : string) :
  all_params ps1 = true ->
  all_params ps2 = true ->
  all_params ps3 = true ->
  clean_err (PStr (String ESC (String "[" ps1) ++ color_seq ps2 ++ ps3 ++ "m"))
  = color_seq (ps1 ++ ps3) /\
  clean_err (PStr (color_seq (ps1 ++ ps3))) = ""%string.
Proof.
  intros H1 H2 H3.
  assert (H13 : all_params (ps1 ++ ps3) = true).
  { clear -H1 H3. induction ps1 as [|c ps1 IH]; simpl in *; [exact H3|].
    apply andb_true_iff in H1. destruct H1 as [Hc H1].
    rewrite Hc. apply IH, H1. }
  split.
  - change (clean_err (PStr (String ESC (String "[" ps1) ++ color_seq ps2 ++ ps3 ++ "m")))
      with (ansi_sub (String ESC (String "[" ps1) ++ color_seq ps2 ++ ps3 ++ "m")).
    pose proof (ansi_sub_color_seq (String ESC (String "[" ps1)) ps2 (ps3 ++ "m") H2) as E.
    rewrite (ansi_sub_clean _ (open_seq_clean ps1 H1)) in E.
    rewrite (ansi_sub_clean (ps3 ++ "m")) in E.
    + rewrite E. unfold color_seq. simpl. rewrite append_assoc. reflexivity.
    + apply no_esc_clean, no_esc_app; [apply params_no_esc, H3 | reflexivity].
  - change (clean_err (PStr (color_seq (ps1 ++ ps3))))
      with (ansi_sub (color_seq (ps1 ++ ps3))).
    pose proof (ansi_sub_color_seq "" (ps1 ++ ps3) "" H13) as E.
    rewrite ansi_sub_empty in E.
    change ("" ++ color_seq (ps1 ++ ps3) ++ "")%string
      with (color_seq (ps1 ++ ps3) ++ "")%string in E.
    rewrite append_empty_r in E. exact E.
Qed.

Lemma clean_err_is_single_pass_witness :
  clean_err (PStr (String ESC "[3" ++ String ESC "[0m" ++ "1m"))
  = String ESC "[31m" /\
  clean_err (PStr (String ESC "[31m")) = ""%string.
Proof.
  exact (clean_err_is_single_pass "3" "0" "1" eq_refl eq_refl eq_refl).
Defined.

Section WatchUrlMore.

Lemma prefix_inv (needle : string) :
  forall s, prefix needle s = true -> exists post, s = (needle ++ post)%string.
Proof.
  induction needle as [|c n IH]; intros s H; [exists s; reflexivity|].
  destruct s as [|y s]; [discriminate H|]. simpl in H.
  destruct (ascii_dec c y) as [<-|]; [|discriminate H].
  destruct (IH s H) as (post & ->). exists post. reflexivity.
Qed.

Lemma contains_inv (needle : string) :
  forall s, PyStr.contains needle s = true ->
            exists pre post, s = (pre ++ needle ++ post)%string.
Proof.
  induction s as [|y s IH].
  - intro H. destruct needle; [|discriminate H]. exists ""%string, ""%string. reflexivity.
  - change (PyStr.contains needle (String y s))
      with (prefix needle (String y s) || PyStr.contains needle s).
    intro H. apply orb_true_iff in H. destruct H as [H|H].
    + destruct (prefix_inv _ _ H) as (post & E). exists ""%string, post. exact E.
    + destruct (IH H) as (pre & post & ->). exists (String y pre), post. reflexivity.
Qed.

End WatchUrlMore.

(** X10. The predicate accepts exactly the URLs in which [youtube.com/watch]
    or [youtu.be/] occurs, wherever it occurs: a URL that has an accepted
    URL anywhere inside it is accepted too. *)
Theorem is_youtube_watch_exact (u : string) :
  (is_youtube_watch u = true <->
   exists pre post,
     u = (pre ++ "youtube.com/watch" ++ post)%string \/
     u = (pre ++ "youtu.be/" ++ post)%string) /\
  (forall a b, is_youtube_watch u = true -> is_youtube_watch (a ++ u ++ b) = true).
Proof.
  assert (Hiff : forall v, is_youtube_watch v = true <->
            exists pre post,
              v = (pre ++ "youtube.com/watch" ++ post)%string \/
              v = (pre ++ "youtu.be/" ++ post)%string).
  { intro v. unfold is_youtube_watch. split.
    - intro H. apply orb_true_iff in H. destruct H as [H|H];
        destruct (contains_inv _ _ H) as (pre & post & E); exists pre, post; auto.
    - intros (pre & post & [-> | ->]); rewrite contains_app;
        [reflexivity | apply orb_true_r]. }
  split; [apply Hiff|].
  intros a b H. apply Hiff in H. destruct H as (pre & post & H).
  apply Hiff. exists (a ++ pre)%string, (post ++ b)%string.
  destruct H as [-> | ->]; [left | right]; rewrite !append_assoc; reflexivity.
Qed.

(** * Further properties of the main window *)

Section Window.

Lemma ui_step_selection_ok (m : Main) (ev : ui_event) :
  selection_ok m -> selection_ok (ui_step m ev).
Proof.
  intro H. destruct ev as [u|title|d|k|]; simpl.
  - exact H.
  - unfold on_use_current. destruct (is_youtube_watch (web_url m)) eqn:E; simpl.
    + right. exact E.
    + exact H.
  - unfold on_choose_dir. destruct (String.eqb d ""); exact H.
  - destruct (on_download m k); exact H.
  - destruct (dlt m); exact H.
Qed.

Lemma ui_step_keeps_selection (m : Main) (ev : ui_event) :
  sel_url (sel m) <> ""%string -> sel_url (sel (ui_step m ev)) <> ""%string.
Proof.
  intro H. destruct ev as [u|title|d|k|]; simpl.
  - exact H.
  - unfold on_use_current. destruct (is_youtube_watch (web_url m)) eqn:E; simpl.
    + intro E'. rewrite E' in E. discriminate E.
    + exact H.
  - unfold on_choose_dir. destruct (String.eqb d ""); exact H.
  - destruct (on_download m k); exact H.
  - destruct (dlt m); exact H.
Qed.

Lemma ui_run_selection_ok (evs : list ui_event) :
  forall m, selection_ok m -> selection_ok (ui_run m evs).
Proof.
  unfold ui_run. induction evs as [|ev evs IH]; intros m H; simpl; [exact H|].
  apply IH, ui_step_selection_ok, H.
Qed.

Lemma ui_run_keeps_selection (evs : list ui_event) :
  forall m, sel_url (sel m) <> ""%string -> sel_url (sel (ui_run m evs)) <> ""%string.
Proof.
  unfold ui_run. induction evs as [|ev evs IH]; intros m H; simpl; [exact H|].
  apply IH, ui_step_keeps_selection, H.
Qed.

End Window.

(** X11. A worker is only ever started on a URL that passes the watch
    predicate, with its flag unset, for the requested kind and the current
    download folder, and never while another download is running; its URL
    is the adopted selection, or the page on screen when nothing was
    adopted. *)
Theorem started_worker_is_valid (self : Main) (k : string) (d : Downloader) :
  on_download self k = Started d ->
  is_youtube_watch (url d) = true /\
  dlt self <> Some true /\
  _stop d = false /\
  kind d = k /\
  outdir d = download_dir self /\
  (url d = sel_url (sel self) \/
   (sel_url (sel self) = ""%string /\ url d = web_url self)).
Proof.
  unfold on_download, _ensure_selected.
  set (u := if String.eqb (sel_url (sel self)) "" then web_url self
            else sel_url (sel self)).
  destruct (is_youtube_watch u) eqn:Hw; simpl negb; cbv iota; [|discriminate].
  rewrite (watch_url_not_empty u Hw).
  destruct (dlt self) as [[|]|] eqn:Hd; try discriminate;
    intros [= <-]; simpl; (repeat split; try assumption; try discriminate);
    unfold u; destruct (String.eqb (sel_url (sel self)) "") eqn:E;
    try (left; reflexivity); right; (split; [apply String.eqb_eq, E | reflexivity]).
Qed.

Lemma started_worker_is_valid_witness :
  is_youtube_watch "https://www.youtube.com/watch?v=abc" = true /\
  dlt Requests.idle_watch_page <> Some true.
Proof.
  destruct (started_worker_is_valid Requests.idle_watch_page "video"
              (Downloader_init "https://www.youtube.com/watch?v=abc" "/music" "video")
              eq_refl) as (H1 & H2 & _).
  split; [exact H1 | exact H2].
Defined.

(** X12. Starting from the window as [__init__] builds it, and whatever
    the user does (browsing, adopting the page, changing the folder,
    requesting downloads) and whenever workers end: the selection is
    empty or a URL that passes the predicate; once a video is adopted the
    selection is never empty again, a download request is never refused
    for lack of a selection, and when no download is running the worker
    is started on the adopted URL, whatever page is on screen. *)
Theorem adopted_selection_stays_downloadable
        (home : string) (evs more : list ui_event) (k : string) :
  let m := ui_run (Main_init home) evs in
  selection_ok m /\
  (sel_url (sel m) <> ""%string ->
   sel_url (sel (ui_run m more)) <> ""%string /\
   on_download m k <> AskSelect /\
   (dlt m <> Some true ->
    on_download m k = Started (Downloader_init (sel_url (sel m)) (download_dir m) k))).
Proof.
  intro m.
  assert (Hok : selection_ok m).
  { apply ui_run_selection_ok. left. reflexivity. }
  split; [exact Hok|]. intro Hsel.
  split; [apply ui_run_keeps_selection, Hsel|].
  destruct Hok as [He | Hw]; [contradiction|].
  apply String.eqb_neq in Hsel.
  unfold on_download, _ensure_selected. rewrite Hsel, Hw. simpl negb. cbv iota.
  rewrite (watch_url_not_empty _ Hw). split.
  - destruct (dlt m) as [[|]|]; discriminate.
  - intro Hrun. destruct (dlt m) as [[|]|]; try reflexivity.
    exfalso. apply Hrun. reflexivity.
Qed.
